(** * Expense ledger: aggregation, filtering and loading

    A shallow embedding of the pandas pipelines of
    [src/analyze_expenses.py], [src/dashboard.py] and
    [src/visualize_expenses.py].

    Conventions of the embedding.
    - Text (column labels, items, categories, year-month keys) is a
      [string] holding the UTF-8 bytes of the Python [str]; byte-wise
      lexicographic order on UTF-8 coincides with Python's code point
      order, which is the order pandas sorts group keys by.
    - Amounts are exact rationals ([Q]); equality of amounts is [Qeq].
      The binary rounding error of float64 is not modelled.
    - A frame's rows are a [list]; the positional order of the list is
      the row order of the frame. *)

From Stdlib Require Import List String Ascii ZArith QArith Qround Qabs.
From Stdlib Require Import DecimalString DecimalN.
From Stdlib Require Import Lia Lqa Bool Permutation Sorted OrderedTypeEx.
Import ListNotations.

Local Open Scope Q_scope.
Local Open Scope list_scope.

(** ** Text order and membership *)

Definition text_ltb (a b : string) : bool := String.ltb a b.
Definition text_eqb (a b : string) : bool := String.eqb a b.

(** Membership test of [Series.isin] over a list of labels. *)
Fixpoint isin (a : string) (l : list string) : bool :=
  match l with
  | [] => false
  | b :: l' => text_eqb a b || isin a l'
  end.

(** Python truthiness of a list: an empty list is false. *)
Definition truthy {A : Type} (l : list A) : bool :=
  match l with
  | [] => false
  | _ :: _ => true
  end.

(** ** Exceptions

    The interpreter's built-in exception classes that the modelled
    code paths can raise, and user-defined classes by name. The
    repository defines no exception class of its own. *)

Inductive exn : Type :=
| IndexError
| KeyError (label : string)
| TypeError
| ValueError
| AttributeError
| UserDefined (class_name : string).

Inductive result (A : Type) : Type :=
| Ok (a : A)
| Raise (e : exn).

Arguments Ok {A} a.
Arguments Raise {A} e.

(** ** Ledger records

    One row of the frame the dashboard works on after [load_data]: the
    four input columns and the derived column 年月. *)

Record Timestamp := mkTimestamp {
  ts_year : Z;
  ts_month : Z;
  ts_day : Z
}.

Record LedgerRecord := mkRecord {
  date : Timestamp;        (* 日期 *)
  item : string;           (* 項目 *)
  amount : Q;              (* 金額 *)
  category : string;       (* 類別 *)
  year_month : string      (* 年月 *)
}.

Definition sumQ (l : list Q) : Q := fold_right Qplus 0 l.

(** ** groupby

    [groupby(key)] with pandas' default [sort=True]: the group keys are
    the distinct key values in ascending order, each group holds the
    rows of that key in frame order. The section is generic in the row
    type: [key] reads the grouping column and [val] the 金額 column. *)

Fixpoint insert_key (k : string) (ks : list string) : list string :=
  match ks with
  | [] => [k]
  | h :: t =>
      if text_ltb k h then k :: ks
      else if text_ltb h k then h :: insert_key k t
      else ks
  end.

Section GroupBy.

Context {A : Type}.
Variable key : A -> string.
Variable val : A -> Q.

Definition group_keys (R : list A) : list string :=
  fold_right (fun r ks => insert_key (key r) ks) [] R.

Definition group (k : string) (R : list A) : list A :=
  filter (fun r => text_eqb (key r) k) R.

(** [Series.sum] of the value column. *)
Definition sum_val (R : list A) : Q := sumQ (map val R).

(** [groupby(key)[val].sum()] *)
Definition groupby_sum (R : list A) : list (string * Q) :=
  map (fun k => (k, sum_val (group k R))) (group_keys R).

End GroupBy.

(** [df['金額'].sum()] on ledger records. *)
Definition sum_amount (R : list LedgerRecord) : Q := sum_val amount R.

(** ** Rounding

    [numpy.rint]: round to the nearest integer, halves to the even
    neighbour; [round(2)] scales by 100, applies [rint], scales back. *)

Definition rint (q : Q) : Z :=
  let f := Qfloor q in
  match ((q - inject_Z f) ?= (1 # 2))%Q with
  | Lt => f
  | Gt => (f + 1)%Z
  | Eq => if Z.even f then f else (f + 1)%Z
  end.

Definition round2 (q : Q) : Q := inject_Z (rint (q * 100)) / 100.

(** ** sort_values

    [nargsort] of pandas: for [ascending=False] the values are
    reversed, argsorted in ascending order and the result reversed
    again. The argsort is modelled as a stable insertion sort (what
    numpy's default sort does on the short arrays at hand). *)

Section SortValues.

Context {A : Type}.
Variable by_ : A -> Q.

Fixpoint insert_asc (x : A) (l : list A) : list A :=
  match l with
  | [] => [x]
  | h :: t =>
      if Qle_bool (by_ x) (by_ h) then x :: l else h :: insert_asc x t
  end.

Definition argsort (l : list A) : list A := fold_right insert_asc [] l.

Definition sort_values (ascending : bool) (l : list A) : list A :=
  if ascending then argsort l else rev (argsort (rev l)).

End SortValues.

(** Sorting by a text column, ascending ([sort_values('年月')],
    [sort_index()]). *)

Section SortText.

Context {A : Type}.
Variable by_ : A -> string.

Fixpoint insert_text (x : A) (l : list A) : list A :=
  match l with
  | [] => [x]
  | h :: t =>
      if text_ltb (by_ h) (by_ x) then h :: insert_text x t else x :: l
  end.

Definition sort_text (l : list A) : list A := fold_right insert_text [] l.

End SortText.

(** ** analyze_expenses.py *)

Record CategorySummary := mkSummary {
  cs_category : string;   (* index: 類別 *)
  total : Q;              (* 總花費 *)
  count : nat;            (* 筆數 *)
  mean : Q                (* 平均花費 *)
}.

Section Analyze.

Context {A : Type}.
Variable cat : A -> string.
Variable amt : A -> Q.

(** [df.groupby('類別')['金額'].agg([sum, count, mean])] *)
Definition agg_category (df : list A) : list CategorySummary :=
  map (fun k =>
         let g := group cat k df in
         mkSummary k (sum_val amt g) (List.length g)
           (sum_val amt g / inject_Z (Z.of_nat (List.length g))))
      (group_keys cat df).

(** [.round(2)]: the two float columns are rounded, the integer count
    is left as it is. *)
Definition round_summary (s : CategorySummary) : CategorySummary :=
  mkSummary (cs_category s) (round2 (total s)) (count s) (round2 (mean s)).

(** Lines 34-41: aggregate, round, then sort by 總花費 descending. *)
Definition category_summary (df : list A) : list CategorySummary :=
  sort_values total false (map round_summary (agg_category df)).

End Analyze.

(** [index[0]] *)
Definition index0 {A : Type} (l : list A) : result A :=
  match l with
  | [] => Raise IndexError
  | x :: _ => Ok x
  end.

(** [category_summary.loc[label]] *)
Definition loc_summary (label : string) (summary : list CategorySummary)
  : result CategorySummary :=
  match find (fun s => text_eqb (cs_category s) label) summary with
  | Some s => Ok s
  | None => Raise (KeyError label)
  end.

Definition bind {A B : Type} (m : result A) (f : A -> result B) : result B :=
  match m with
  | Ok a => f a
  | Raise e => Raise e
  end.

Notation "x <- m ;; f" := (bind m (fun x => f))
  (at level 61, m at next level, right associativity).

(** Lines 46-48: the label of the first summary row and its 總花費. *)
Definition leading_category (summary : list CategorySummary)
  : result (string * Q) :=
  max_category <- index0 (map cs_category summary) ;;
  row <- loc_summary max_category summary ;;
  Ok (max_category, total row).

(** [analyze_expenses] on the frame read from the input file; the
    returned triple is [(category_summary, max_category, max_amount)].
    Printing and the export are output only. *)
Definition analyze_expenses (df : list LedgerRecord)
  : result (list CategorySummary * string * Q) :=
  let summary := category_summary category amount df in
  lead <- leading_category summary ;;
  Ok (summary, fst lead, snd lead).

(** ** dashboard.py *)

(** Lines 351-358 of [main]: both selections must be non-empty for the
    mask to be applied; otherwise the whole frame is shown. *)
Definition apply_filter (selected_categories selected_months : list string)
  (df : list LedgerRecord) : list LedgerRecord :=
  if truthy selected_categories && truthy selected_months then
    filter (fun r => isin (category r) selected_categories
                     && isin (year_month r) selected_months) df
  else df.

(** The result of [pivot_table]: row labels, column labels and the
    cell values row by row. *)
Record PivotTable := mkPivot {
  pv_index : list string;
  pv_columns : list string;
  pv_values : list (list Q)
}.

Section Dashboard.

Context {A : Type}.
Variable cat : A -> string.
Variable ym : A -> string.
Variable amt : A -> Q.

(** The frame that [create_category_pie_chart] hands to the plot. *)
Definition category_pie_data (df : list A) : list (string * Q) :=
  sort_values snd false (groupby_sum cat amt df).

(** The frame that [create_monthly_trend_chart] hands to the plot. *)
Definition monthly_trend_data (df : list A)
  (selected_categories : option (list string)) : list (string * Q) :=
  let df_filtered :=
    match selected_categories with
    | Some (c :: l) => filter (fun r => isin (cat r) (c :: l)) df
    | _ => df
    end in
  sort_text fst (groupby_sum ym amt df_filtered).

(** [pivot_table(values='金額', index='年月', columns='類別',
    aggfunc='sum', fill_value=0)] *)
Definition pivot_cell (df : list A) (m c : string) : Q :=
  match filter (fun r => text_eqb (ym r) m && text_eqb (cat r) c) df with
  | [] => 0
  | g => sum_val amt g
  end.

Definition pivot_table (df : list A) : PivotTable :=
  let idx := group_keys ym df in
  let cols := group_keys cat df in
  mkPivot idx cols (map (fun m => map (fun c => pivot_cell df m c) cols) idx).

End Dashboard.

(** ** Text formatting *)

Local Open Scope string_scope.

(** Decimal digits of a non-negative integer. *)
Definition decimal (n : Z) : string :=
  NilZero.string_of_uint (N.to_uint (Z.to_N n)).

(** Left padding with zeros up to [width] characters, as [%0wd]. *)
Fixpoint zeros (k : nat) : string :=
  match k with
  | O => ""
  | S k' => String "0" (zeros k')
  end.

Definition pad0 (width : nat) (s : string) : string :=
  zeros (width - String.length s) ++ s.

(** [strftime('%Y-%m-%d')] *)
Definition strftime_ymd (t : Timestamp) : string :=
  pad0 4 (decimal (ts_year t)) ++ "-" ++ pad0 2 (decimal (ts_month t))
  ++ "-" ++ pad0 2 (decimal (ts_day t)).

(** [str] of the monthly period of a timestamp:
    [dt.to_period('M').astype(str)] *)
Definition period_str (t : Timestamp) : string :=
  pad0 4 (decimal (ts_year t)) ++ "-" ++ pad0 2 (decimal (ts_month t)).

(** Thousands separators, on the reversed digit list; [k] counts the
    digits already written in the current group. *)
Fixpoint commas_rev (l : list ascii) (k : nat) : list ascii :=
  match l with
  | [] => []
  | c :: t =>
      match t with
      | [] => [c]
      | _ :: _ =>
          if Nat.eqb k 2 then c :: ","%char :: commas_rev t 0
          else c :: commas_rev t (S k)
      end
  end.

(** The f-string [f'${x:,.0f}']: no decimals, halves to even, a comma
    every three digits, the sign of [x] kept. *)
Definition format_money (x : Q) : string :=
  let digits := list_ascii_of_string (decimal (Z.abs (rint x))) in
  "$" ++ (if Qle_bool 0 x then "" else "-")
  ++ string_of_list_ascii (rev (commas_rev (rev digits) 0)).

(** ** nlargest *)

(** Rows paired with their index labels (a [RangeIndex]). *)
Definition enumerate {A : Type} (l : list A) : list (nat * A) :=
  combine (seq 0 (List.length l)) l.

(** [df.nlargest(n, col)] with the default [keep='first']: the first
    [n] rows in descending order of the column, rows of equal value in
    frame order; the rows keep their index labels. Nothing is returned
    for [n <= 0]. *)
Definition nlargest {A : Type} (by_ : A -> Q) (n : Z) (df : list (nat * A))
  : list (nat * A) :=
  firstn (Z.to_nat n) (sort_values (fun r => by_ (snd r)) false df).

(** ** Frames as pandas holds them

    A frame read from a spreadsheet: named columns of dynamically typed
    cells, in column order; the rows are the positions of the cells. *)

Inductive cell : Type :=
| CNum (q : Q)               (* int64 / float64 *)
| CText (s : string)         (* str *)
| CTime (t : Timestamp)      (* datetime64 *)
| CPeriod (y m : Z)          (* Period, monthly *)
| CNull.                     (* NaN / NaT / an empty spreadsheet cell *)

Definition column : Type := list cell.
Definition DataFrame : Type := list (string * column).

Definition col_date : string := "日期".
Definition col_item : string := "項目".
Definition col_amount : string := "金額".
Definition col_category : string := "類別".
Definition col_year_month : string := "年月".
Definition col_month : string := "月份".
Definition col_year : string := "年份".

(** [name in df.columns] *)
Definition has_column (name : string) (df : DataFrame) : bool :=
  existsb (fun c => text_eqb (fst c) name) df.

(** [df[name]] *)
Fixpoint getitem (name : string) (df : DataFrame) : result column :=
  match df with
  | [] => Raise (KeyError name)
  | (n, c) :: rest => if text_eqb n name then Ok c else getitem name rest
  end.

(** [df[name] = col]: an existing column is replaced where it stands,
    a new one is appended. *)
Fixpoint setitem (name : string) (col : column) (df : DataFrame) : DataFrame :=
  match df with
  | [] => [(name, col)]
  | (n, c) :: rest =>
      if text_eqb n name then (name, col) :: rest
      else (n, c) :: setitem name col rest
  end.

(** Sequencing over a column, stopping at the first exception. *)
Fixpoint traverse {A B : Type} (f : A -> result B) (l : list A)
  : result (list B) :=
  match l with
  | [] => Ok []
  | a :: l' => b <- f a ;; bs <- traverse f l' ;; Ok (b :: bs)
  end.

Section ToDatetime.

(** The scalar parsers of [pd.to_datetime] are library code: the date
    parser for text and the epoch conversion for numbers. *)
Variable parse_text : string -> option Timestamp.
Variable parse_number : Q -> option Timestamp.

Definition to_datetime_cell (c : cell) : result cell :=
  match c with
  | CTime t => Ok (CTime t)
  | CNull => Ok CNull
  | CText s =>
      match parse_text s with
      | Some t => Ok (CTime t)
      | None => Raise ValueError
      end
  | CNum q =>
      match parse_number q with
      | Some t => Ok (CTime t)
      | None => Raise ValueError
      end
  | CPeriod _ _ => Raise TypeError
  end.

(** [pd.to_datetime(series)] *)
Definition to_datetime (col : column) : result column :=
  traverse to_datetime_cell col.

End ToDatetime.

(** The [.dt] accessors on a datetime column; [NaT] has no year or
    month, and its period prints as "NaT". *)
Definition dt_year (c : cell) : cell :=
  match c with
  | CTime t => CNum (inject_Z (ts_year t))
  | _ => CNull
  end.

Definition dt_month (c : cell) : cell :=
  match c with
  | CTime t => CNum (inject_Z (ts_month t))
  | _ => CNull
  end.

Definition dt_to_period (c : cell) : cell :=
  match c with
  | CTime t => CPeriod (ts_year t) (ts_month t)
  | _ => CNull
  end.

Definition astype_str (c : cell) : cell :=
  match c with
  | CPeriod y m => CText (period_str (mkTimestamp y m 1))
  | CText s => CText s
  | CNull => CText "NaT"
  | c' => c'
  end.

(** ** dashboard.py: load_data *)

Definition required_columns : list string :=
  [col_date; col_item; col_amount; col_category].

(** What [load_data] shows through [st.error]. *)
Inductive ui_event : Type :=
| ErrorMissingColumns (required : list string)
| ErrorReading (e : exn).

Section LoadData.

Variable parse_text : string -> option Timestamp.
Variable parse_number : Q -> option Timestamp.

(** The body of the [try] block after the column check. *)
Definition derive_columns (df : DataFrame) : result DataFrame :=
  d <- getitem col_date df ;;
  dates <- to_datetime parse_text parse_number d ;;
  let df1 := setitem col_date dates df in
  d1 <- getitem col_date df1 ;;
  let df2 := setitem col_year_month (map astype_str (map dt_to_period d1)) df1 in
  d2 <- getitem col_date df2 ;;
  let df3 := setitem col_month (map dt_month d2) df2 in
  d3 <- getitem col_date df3 ;;
  Ok (setitem col_year (map dt_year d3) df3).

(** [load_data]; [read_excel] is the outcome of [pd.read_excel]. The
    function returns [None] on every failure, after one [st.error]. *)
Definition load_data (read_excel : result DataFrame)
  : option DataFrame * list ui_event :=
  match read_excel with
  | Raise e => (None, [ErrorReading e])
  | Ok df =>
      if forallb (fun c => has_column c df) required_columns then
        match derive_columns df with
        | Ok df' => (Some df', [])
        | Raise e => (None, [ErrorReading e])
        end
      else (None, [ErrorMissingColumns required_columns])
  end.

End LoadData.

(** ** Frames as shared objects

    A frame passed to a function is a reference: an assignment
    [df[name] = ...] inside the function is seen by the caller. The
    heap holds the frames; a location is a position in it. Calls that
    build a frame ([nlargest], a column selection, [reset_index])
    allocate a new location. *)

Definition loc : Type := nat.
Definition heap : Type := list DataFrame.
Definition M (A : Type) : Type := heap -> result A * heap.

Definition ret {A : Type} (a : A) : M A := fun h => (Ok a, h).

Definition lift {A : Type} (r : result A) : M A := fun h => (r, h).

Definition bindM {A B : Type} (m : M A) (f : A -> M B) : M B :=
  fun h =>
    match m h with
    | (Ok a, h') => f a h'
    | (Raise e, h') => (Raise e, h')
    end.

Notation "x <~ m ;; f" := (bindM m (fun x => f))
  (at level 61, m at next level, right associativity).

Fixpoint update_nth {A : Type} (n : nat) (a : A) (l : list A) : list A :=
  match l, n with
  | [], _ => []
  | _ :: t, O => a :: t
  | x :: t, S n' => x :: update_nth n' a t
  end.

Definition deref (l : loc) : M DataFrame := fun h => (Ok (nth l h []), h).

Definition new_frame (df : DataFrame) : M loc :=
  fun h => (Ok (List.length h), (h ++ [df])%list).

Definition df_getitem (l : loc) (name : string) : M column :=
  df <~ deref l ;; lift (getitem name df).

Definition df_setitem (l : loc) (name : string) (col : column) : M unit :=
  fun h => (Ok tt, update_nth l (setitem name col (nth l h [])) h).

(** *** Reading typed rows out of a frame

    A group key is a text label or a period; a row whose key is null
    is left out of every group (pandas' [dropna=True]). [sum] skips
    null amounts. Frames whose key column holds numbers or timestamps,
    or whose amount column holds text, are outside the aggregation
    model: reading them raises [TypeError]. *)

Definition key_of (c : cell) : result (option string) :=
  match c with
  | CText s => Ok (Some s)
  | CPeriod y m => Ok (Some (period_str (mkTimestamp y m 1)))
  | CNull => Ok None
  | _ => Raise TypeError
  end.

Definition num_of (c : cell) : result Q :=
  match c with
  | CNum q => Ok q
  | CNull => Ok 0%Q
  | _ => Raise TypeError
  end.

Fixpoint dropna {B : Type} (l : list (option string * B)) : list (string * B) :=
  match l with
  | [] => []
  | (Some k, b) :: l' => (k, b) :: dropna l'
  | (None, _) :: l' => dropna l'
  end.

(** The rows [(key, amount)] of a frame. *)
Definition rows_kv (key_col : string) (df : DataFrame)
  : result (list (option string * Q)) :=
  ks <- getitem key_col df ;;
  vs <- getitem col_amount df ;;
  ks' <- traverse key_of ks ;;
  vs' <- traverse num_of vs ;;
  Ok (combine ks' vs').

(** The rows [(category, (year-month, amount))] of a frame. *)
Definition rows_kkv (df : DataFrame)
  : result (list (option string * (option string * Q))) :=
  cs <- getitem col_category df ;;
  cs' <- traverse key_of cs ;;
  ms <- rows_kv col_year_month df ;;
  Ok (combine cs' ms).

(** [df.groupby(key)['金額'].sum()] on a frame. *)
Definition frame_groupby_sum (key_col : string) (df : DataFrame)
  : result (list (string * Q)) :=
  rows <- rows_kv key_col df ;;
  Ok (groupby_sum fst snd (dropna rows)).

(** [df.pivot_table(values='金額', index='年月', columns='類別',
    aggfunc='sum', fill_value=0)] on a frame. *)
Definition frame_pivot_table (df : DataFrame) : result PivotTable :=
  rows <- rows_kkv df ;;
  Ok (pivot_table (fun r => fst (snd r)) fst (fun r => snd (snd r))
        (dropna (map (fun r => (fst (snd r), (fst r, snd (snd r))))
                   (dropna rows)))).

(** [frame.iloc[idx]]: the rows at the given positions, in that order. *)
Definition take_rows (idx : list nat) (df : DataFrame) : DataFrame :=
  map (fun nc => (fst nc, map (fun i => nth i (snd nc) CNull) idx)) df.

(** [frame[[names]]] *)
Definition select_columns (names : list string) (df : DataFrame)
  : result DataFrame :=
  traverse (fun n => c <- getitem n df ;; Ok (n, c)) names.

Definition amount_of (c : cell) : result (option Q) :=
  match c with
  | CNum q => Ok (Some q)
  | CNull => Ok None
  | _ => Raise TypeError
  end.

(** The row positions that [df.nlargest(n, '金額')] selects: the
    numeric amounts in descending order, rows with a null amount after
    them, cut at [n]. *)
Definition nlargest_index (n : Z) (amounts : column) : result (list nat) :=
  vs <- traverse amount_of amounts ;;
  let rows := enumerate vs in
  let present :=
    flat_map (fun r => match snd r with Some q => [(fst r, q)] | None => [] end)
             rows in
  let absent :=
    flat_map (fun r => match snd r with Some _ => [] | None => [fst r] end)
             rows in
  Ok (firstn (Z.to_nat n)
        (map fst (sort_values snd false present) ++ absent)%list).

(** [.dt.strftime('%Y-%m-%d')]; the accessor exists on datetime
    columns only. *)
Definition dt_strftime (c : cell) : result cell :=
  match c with
  | CTime t => Ok (CText (strftime_ymd t))
  | CNull => Ok CNull
  | _ => Raise AttributeError
  end.

(** [.apply(lambda x: f'${x:,.0f}')] *)
Definition format_amount (c : cell) : cell :=
  match c with
  | CNum q => CText (format_money q)
  | CNull => CText "$nan"
  | c' => c'
  end.

Module Dashboard.

(** [create_category_pie_chart(df)]: the summary handed to the plot. *)
Definition create_category_pie_chart (df : loc) : M (list (string * Q)) :=
  frame <~ deref df ;;
  category_summary <~ lift (frame_groupby_sum col_category frame) ;;
  ret (sort_values snd false category_summary).

(** [create_monthly_trend_chart(df, selected_categories)] *)
Definition create_monthly_trend_chart (df : loc)
  (selected_categories : option (list string)) : M (list (string * Q)) :=
  frame <~ deref df ;;
  rows <~ lift
    match selected_categories with
    | Some (c :: l) =>
        rows <- rows_kkv frame ;;
        Ok (map snd
              (filter (fun r => match fst r with
                                | Some k => isin k (c :: l)
                                | None => false
                                end) rows))
    | _ => rows_kv col_year_month frame
    end ;;
  ret (sort_text fst (groupby_sum fst snd (dropna rows))).

(** [create_category_monthly_stacked_chart(df)] *)
Definition create_category_monthly_stacked_chart (df : loc) : M PivotTable :=
  frame <~ deref df ;;
  lift (frame_pivot_table frame).

(** [create_top_expenses_table(df, n)]; the table is a new frame, the
    two formatted columns are assigned on it, and [reset_index] makes
    another one. Row labels are positions, so renumbering them leaves
    the cells as they are. *)
Definition create_top_expenses_table (df : loc) (n : Z) : M loc :=
  frame <~ deref df ;;
  amounts <~ lift (getitem col_amount frame) ;;
  idx <~ lift (nlargest_index n amounts) ;;
  largest <~ new_frame (take_rows idx frame) ;;
  largest_frame <~ deref largest ;;
  selection <~ lift (select_columns
                       [col_date; col_item; col_category; col_amount]
                       largest_frame) ;;
  top_expenses <~ new_frame selection ;;
  d <~ df_getitem top_expenses col_date ;;
  formatted <~ lift (traverse dt_strftime d) ;;
  _ <~ df_setitem top_expenses col_date formatted ;;
  a <~ df_getitem top_expenses col_amount ;;
  _ <~ df_setitem top_expenses col_amount (map format_amount a) ;;
  renumbered <~ deref top_expenses ;;
  new_frame renumbered.

End Dashboard.

Module Visualize.

Section WithParsers.

Variable parse_text : string -> option Timestamp.
Variable parse_number : Q -> option Timestamp.

(** [create_category_pie_chart(df, output_path)] *)
Definition create_category_pie_chart (df : loc) : M (list (string * Q)) :=
  frame <~ deref df ;;
  category_summary <~ lift (frame_groupby_sum col_category frame) ;;
  ret (sort_values snd false category_summary).

(** [create_monthly_trend_chart(df, output_path)]: lines 72 and 75
    assign to the caller's frame before the grouping. Periods are
    keyed by their text, whose order is the chronological one. *)
Definition create_monthly_trend_chart (df : loc) : M (list (string * Q)) :=
  d <~ df_getitem df col_date ;;
  dates <~ lift (to_datetime parse_text parse_number d) ;;
  _ <~ df_setitem df col_date dates ;;
  d1 <~ df_getitem df col_date ;;
  _ <~ df_setitem df col_year_month (map dt_to_period d1) ;;
  frame <~ deref df ;;
  monthly_summary <~ lift (frame_groupby_sum col_year_month frame) ;;
  ret (sort_text fst monthly_summary).

(** [create_category_monthly_trend_chart(df, output_path)]: lines 136
    and 137 assign to the caller's frame before the pivot. *)
Definition create_category_monthly_trend_chart (df : loc) : M PivotTable :=
  d <~ df_getitem df col_date ;;
  dates <~ lift (to_datetime parse_text parse_number d) ;;
  _ <~ df_setitem df col_date dates ;;
  d1 <~ df_getitem df col_date ;;
  _ <~ df_setitem df col_year_month (map dt_to_period d1) ;;
  frame <~ deref df ;;
  lift (frame_pivot_table frame).

End WithParsers.

End Visualize.

(** ** A concrete pair of scalar parsers

    The ISO form [YYYY-MM-DD] for text and nanoseconds since
    1970-01-01 for numbers; used where a statement is evaluated on a
    concrete frame. *)

Definition digit_val (c : ascii) : option Z :=
  let n := nat_of_ascii c in
  if (Nat.leb 48 n && Nat.leb n 57)%bool then Some (Z.of_nat (n - 48)) else None.

Fixpoint number_of (acc : Z) (l : list ascii) : option Z :=
  match l with
  | [] => Some acc
  | c :: l' =>
      match digit_val c with
      | Some d => number_of (10 * acc + d)%Z l'
      | None => None
      end
  end.

Definition is_leap (y : Z) : bool :=
  ((y mod 4 =? 0) && (negb (y mod 100 =? 0) || (y mod 400 =? 0)))%Z%bool.

Definition days_in_month (y m : Z) : Z :=
  if (m =? 2)%Z then (if is_leap y then 29 else 28)%Z
  else if ((m =? 4) || (m =? 6) || (m =? 9) || (m =? 11))%Z%bool then 30%Z
  else 31%Z.

Definition valid_date (t : Timestamp) : bool :=
  ((1 <=? ts_year t) && (ts_year t <=? 9999)
   && (1 <=? ts_month t) && (ts_month t <=? 12)
   && (1 <=? ts_day t)
   && (ts_day t <=? days_in_month (ts_year t) (ts_month t)))%Z%bool.

Definition iso_date (s : string) : option Timestamp :=
  match list_ascii_of_string s with
  | [y1; y2; y3; y4; d1; m1; m2; d2; a1; a2] =>
      if (Ascii.eqb d1 "-" && Ascii.eqb d2 "-")%bool then
        match number_of 0 [y1; y2; y3; y4], number_of 0 [m1; m2],
              number_of 0 [a1; a2] with
        | Some y, Some m, Some d =>
            let t := mkTimestamp y m d in
            if valid_date t then Some t else None
        | _, _, _ => None
        end
      else None
  | _ => None
  end.

(** The civil date of a day count from 1970-01-01. *)
Definition civil_from_days (z : Z) : Timestamp :=
  let z := (z + 719468)%Z in
  let era := (z / 146097)%Z in
  let doe := (z - era * 146097)%Z in
  let yoe := ((doe - doe / 1460 + doe / 36524 - doe / 146096) / 365)%Z in
  let doy := (doe - (365 * yoe + yoe / 4 - yoe / 100))%Z in
  let mp := ((5 * doy + 2) / 153)%Z in
  let d := (doy - (153 * mp + 2) / 5 + 1)%Z in
  let m := (if mp <? 10 then mp + 3 else mp - 9)%Z in
  mkTimestamp (yoe + era * 400 + (if m <=? 2 then 1 else 0))%Z m d.

Definition epoch_ns (q : Q) : option Timestamp :=
  let ns := Qfloor q in
  if ((- 2 ^ 63 <? ns) && (ns <? 2 ^ 63))%Z%bool then
    Some (civil_from_days (ns / 86400000000000)%Z)
  else None.

(** ** Propositions and closed forms used in the statements *)

(** The strict order on text as a proposition. *)
Definition text_lt (a b : string) : Prop := text_ltb a b = true.

(** ** The order a stable sort establishes *)

Section StableOrder.

Context {A : Type}.
Variable by_ : A -> Q.

(** The order an ascending stable sort establishes, when [ord] relates
    every row to the rows after it in the input. *)
Definition asc_then (ord : A -> A -> Prop) (a b : A) : Prop :=
  by_ a < by_ b \/ (by_ a == by_ b /\ ord a b).

(** The same for the descending sort. *)
Definition desc_then (ord : A -> A -> Prop) (a b : A) : Prop :=
  by_ b < by_ a \/ (by_ a == by_ b /\ ord a b).

End StableOrder.


(** Reading a year-month key back: the digits before and after the
    dash. *)
Definition parse_digits (s : string) : option Z :=
  option_map (fun d => Z.of_N (N.of_uint d)) (NilEmpty.uint_of_string s).

Fixpoint split_dash (s : string) : string * string :=
  match s with
  | EmptyString => (EmptyString, EmptyString)
  | String c s' =>
      if Ascii.eqb c "-" then (EmptyString, s')
      else (String c (fst (split_dash s')), snd (split_dash s'))
  end.

Definition unperiod (s : string) : option (Z * Z) :=
  match parse_digits (fst (split_dash s)), parse_digits (snd (split_dash s)) with
  | Some y, Some m => Some (y, m)
  | _, _ => None
  end.

(** The frame [load_data] returns for the converted dates [dates]. *)
Definition loaded_frame (dates : column) (df : DataFrame) : DataFrame :=
  setitem col_year (map dt_year dates)
    (setitem col_month (map dt_month dates)
       (setitem col_year_month (map astype_str (map dt_to_period dates))
          (setitem col_date dates df))).

(** The frame that the two trend charts of visualize_expenses.py leave
    in place of the caller's frame. *)
Definition trend_chart_frame (dates : column) (df : DataFrame) : DataFrame :=
  setitem col_year_month (map dt_to_period dates) (setitem col_date dates df).

(** The derived columns of a loaded frame agree with its dates: on
    every row that has a date, 年份 and 月份 are the year and the month
    of that date and 年月 is its year-month key; and two rows with
    dates have the same key exactly when they have the same year and
    the same month. *)
Definition derived_fields_agree (df : DataFrame) : Prop :=
  exists dates yms months years,
    getitem col_date df = Ok dates
    /\ getitem col_year_month df = Ok yms
    /\ getitem col_month df = Ok months
    /\ getitem col_year df = Ok years
    /\ (forall i t, nth_error dates i = Some (CTime t) ->
          nth_error years i = Some (CNum (inject_Z (ts_year t)))
          /\ nth_error months i = Some (CNum (inject_Z (ts_month t)))
          /\ nth_error yms i = Some (CText (period_str t)))
    /\ (forall i j t u,
          nth_error dates i = Some (CTime t) ->
          nth_error dates j = Some (CTime u) ->
          valid_date t = true -> valid_date u = true ->
          (nth_error yms i = nth_error yms j <->
           nth_error years i = nth_error years j
           /\ nth_error months i = nth_error months j)).

(** ** Example ledger *)

Definition lunch : LedgerRecord :=
  mkRecord (mkTimestamp 2024 1 1) "lunch" 150 "food" "2024-01".
Definition transit : LedgerRecord :=
  mkRecord (mkTimestamp 2024 1 2) "transit" 30 "transport" "2024-01".
Definition movie : LedgerRecord :=
  mkRecord (mkTimestamp 2024 2 1) "movie" 280 "entertainment" "2024-02".

(** A small ledger as [pd.read_excel] returns it. *)
Definition sample_frame : DataFrame :=
  [ (col_date, [CTime (mkTimestamp 2024 1 1); CText "2024-01-02";
                CTime (mkTimestamp 2024 2 1)]);
    (col_item, [CText "lunch"; CText "transit"; CText "movie"]);
    (col_amount, [CNum 150; CNum 30; CNum 280]);
    (col_category, [CText "food"; CText "transport"; CText "entertainment"]) ].

(** A frame whose amounts are not numbers. *)
Definition unparsed_amounts : DataFrame :=
  [ (col_date, [CTime (mkTimestamp 2024 1 1); CText "2024-01-02"]);
    (col_item, [CText "lunch"; CText "transit"]);
    (col_amount, [CText "abc"; CNull]);
    (col_category, [CText "food"; CText "transport"]) ].


(** The table [create_top_expenses_table] builds from the selected
    records. *)
Definition top_table_frame (top : list LedgerRecord) : DataFrame :=
  [ (col_date, map (fun r => CText (strftime_ymd (date r))) top);
    (col_item, map (fun r => CText (item r)) top);
    (col_category, map (fun r => CText (category r)) top);
    (col_amount, map (fun r => CText (format_money (amount r))) top) ].


(** ** dashboard.py: the summary metrics and the selections of [main] *)

(** [Series.unique()]: the distinct values in order of first
    appearance. *)
Fixpoint unique_from (seen : list string) (l : list string) : list string :=
  match l with
  | [] => []
  | x :: t =>
      if isin x seen then unique_from seen t
      else x :: unique_from (x :: seen) t
  end.

Definition unique (l : list string) : list string := unique_from [] l.



(** [melt(id_vars='年月', var_name='類別', value_name='金額')] of the
    pivot after [reset_index]: one row per cell, column after column. *)
Definition melt (P : PivotTable) : list (string * string * Q) :=
  flat_map
    (fun jc =>
       map (fun mrow => (fst mrow, snd jc, nth (fst jc) (snd mrow) 0%Q))
           (combine (pv_index P) (pv_values P)))
    (enumerate (pv_columns P)).

(** The long frame that [create_category_monthly_stacked_chart] hands
    to the plot. *)
Definition stacked_chart_data (df : list LedgerRecord)
  : list (string * string * Q) :=
  melt (pivot_table category year_month amount df).

(** The options of the two multiselects of [main]. *)
Definition all_categories (df : list LedgerRecord) : list string :=
  unique (map category df).

Definition all_months (df : list LedgerRecord) : list string :=
  sort_text (fun s => s) (unique (map year_month df)).

(** What [main] shows below the filters: the warning, or the count
    line and the inputs of the four views. The preview of the raw rows
    and the download are output only. *)
Inductive View : Type :=
| NoMatch
| Shown (shown total_rows : nat)
        (pie trend : list (string * Q))
        (stacked : list (string * string * Q))
        (top_expenses : DataFrame).

Definition main_view (df : list LedgerRecord)
  (selected_categories selected_months : list string) : View :=
  let df_filtered := apply_filter selected_categories selected_months df in
  if Nat.eqb (List.length df_filtered) 0 then NoMatch
  else
    Shown (List.length df_filtered) (List.length df)
      (category_pie_data category amount df_filtered)
      (monthly_trend_data category year_month amount df_filtered
         (Some selected_categories))
      (stacked_chart_data df_filtered)
      (top_table_frame (map snd (nlargest amount 10 (enumerate df_filtered)))).

(** ** visualize_expenses.py: the inputs of the pie and [main] *)


Definition stacked_colors : list string :=
  [ "#FF6B6B"; "#4ECDC4"; "#45B7D1"; "#FFA07A"; "#98D8C8"; "#F7DC6F" ].



Module VisualizeMain.

Section WithParsers.

Variable parse_text : string -> option Timestamp.
Variable parse_number : Q -> option Timestamp.


End WithParsers.

End VisualizeMain.


(** ** Further propositions and closed forms used in the statements *)

(** The order on text, not strict. *)
Definition text_le (a b : string) : Prop := text_ltb b a = false.



(** How the frame [df'] that [load_data] returns relates to the frame
    [df] that was read: every column of [df] is still there, every
    column other than 日期 and the three derived ones holds what was
    read, and when [df] has none of the derived names they are
    appended after its columns, in the order 年月, 月份, 年份. *)
Definition columns_kept (df df' : DataFrame) : Prop :=
  (forall name, has_column name df = true -> has_column name df' = true)
  /\ (forall name,
        ~ In name [col_date; col_year_month; col_month; col_year] ->
        getitem name df' = getitem name df)
  /\ (has_column col_year_month df = false ->
      has_column col_month df = false ->
      has_column col_year df = false ->
      map fst df'
      = (map fst df ++ [col_year_month; col_month; col_year])%list).

(** Reading a formatted amount without its separators. *)
Definition remove_commas (l : list ascii) : list ascii :=
  filter (fun c => negb (Ascii.eqb c ",")) l.

(** Reading the text of a date back: the digits between the dashes. *)
Definition undate (s : string) : option (Z * Z * Z) :=
  let y := fst (split_dash s) in
  let rest := snd (split_dash s) in
  match parse_digits y, parse_digits (fst (split_dash rest)),
        parse_digits (snd (split_dash rest)) with
  | Some y', Some m', Some d' => Some (y', m', d')
  | _, _, _ => None
  end.




(** In the selection, a row placed before a row with a number holds a
    number too, and one that is not smaller. *)
Definition ranks_before (amounts : column) (i j : nat) : Prop :=
  forall b, nth_error amounts j = Some (CNum b) ->
            exists a, nth_error amounts i = Some (CNum a) /\ b <= a.


(** Neither chart can miss a column of the frame. *)
Definition charts_find_columns (df : DataFrame) : Prop :=
  forall k,
    frame_groupby_sum col_category df <> Raise (KeyError k)
    /\ frame_groupby_sum col_year_month df <> Raise (KeyError k).



(** * Properties *)

(** ** Text order *)

Lemma text_ltb_lt (a b : string) : text_ltb a b = true <-> String_as_OT.lt a b.
Proof.
  unfold text_ltb, String.ltb. rewrite <- String_as_OT.cmp_lt.
  unfold String_as_OT.cmp. destruct (String.compare a b); split; congruence.
Qed.

Lemma text_ltb_irrefl (a : string) : text_ltb a a = false.
Proof.
  destruct (text_ltb a a) eqn:E; [|reflexivity].
  apply text_ltb_lt in E. exfalso.
  exact (String_as_OT.lt_not_eq _ _ E Logic.eq_refl).
Qed.

Lemma text_lt_trans (a b c : string) : text_lt a b -> text_lt b c -> text_lt a c.
Proof.
  unfold text_lt. rewrite !text_ltb_lt. apply String_as_OT.lt_trans.
Qed.

Lemma text_ltb_total (a b : string) :
  text_ltb a b = false -> text_ltb b a = false -> a = b.
Proof.
  unfold text_ltb, String.ltb. intros H1 H2.
  destruct (String.compare a b) eqn:E.
  - now apply String.compare_eq_iff.
  - discriminate.
  - rewrite String.compare_antisym, E in H2. discriminate.
Qed.

Lemma text_lt_neq (a b : string) : text_lt a b -> a <> b.
Proof.
  intros H ->. unfold text_lt in H. rewrite text_ltb_irrefl in H. discriminate.
Qed.

Lemma text_eqb_eq (a b : string) : text_eqb a b = true <-> a = b.
Proof. apply String.eqb_eq. Qed.

Lemma text_eqb_refl (a : string) : text_eqb a a = true.
Proof. apply String.eqb_refl. Qed.

Lemma text_eqb_neq (a b : string) : text_eqb a b = false <-> a <> b.
Proof. apply String.eqb_neq. Qed.

Lemma isin_In (a : string) (l : list string) : isin a l = true <-> In a l.
Proof.
  induction l as [|b l IH]; simpl.
  - split; [discriminate | tauto].
  - rewrite orb_true_iff, IH, text_eqb_eq. split; intros [H|H]; auto.
Qed.

Lemma isin_not_In (a : string) (l : list string) : isin a l = false <-> ~ In a l.
Proof.
  rewrite <- isin_In. destruct (isin a l); split; congruence.
Qed.

(** ** Group keys: distinct, ascending, and exactly the keys present *)

Lemma insert_key_In (k x : string) (ks : list string) :
  In x (insert_key k ks) <-> x = k \/ In x ks.
Proof.
  induction ks as [|h t IH]; simpl.
  - intuition.
  - destruct (text_ltb k h) eqn:E1; simpl.
    + intuition.
    + destruct (text_ltb h k) eqn:E2; simpl.
      * rewrite IH. intuition.
      * pose proof (text_ltb_total _ _ E1 E2). subst. intuition.
Qed.

Lemma insert_key_sorted (k : string) (ks : list string) :
  StronglySorted text_lt ks -> StronglySorted text_lt (insert_key k ks).
Proof.
  induction 1 as [|h t Hs IH Hall]; simpl.
  - repeat constructor.
  - destruct (text_ltb k h) eqn:E1.
    + constructor; [constructor; assumption|].
      constructor; [exact E1|].
      rewrite Forall_forall in *. intros x Hx.
      eapply text_lt_trans; [exact E1 | auto].
    + destruct (text_ltb h k) eqn:E2.
      * constructor; [assumption|].
        rewrite Forall_forall in *. intros x Hx.
        apply insert_key_In in Hx. destruct Hx as [->|Hx]; auto.
      * constructor; assumption.
Qed.

Lemma sorted_text_NoDup (ks : list string) :
  StronglySorted text_lt ks -> NoDup ks.
Proof.
  induction 1 as [|h t Hs IH Hall]; constructor; auto.
  intro Hin. rewrite Forall_forall in Hall.
  exact (text_lt_neq _ _ (Hall _ Hin) Logic.eq_refl).
Qed.

Section GroupFacts.

Context {A : Type}.
Variable key : A -> string.
Variable val : A -> Q.

Lemma group_keys_sorted (R : list A) : StronglySorted text_lt (group_keys key R).
Proof.
  induction R as [|r R IH]; simpl.
  - constructor.
  - apply insert_key_sorted, IH.
Qed.

Lemma group_keys_In (R : list A) (k : string) :
  In k (group_keys key R) <-> exists r, In r R /\ key r = k.
Proof.
  induction R as [|r R IH]; simpl.
  - split; [tauto | intros (r & [] & _)].
  - rewrite insert_key_In, IH. split.
    + intros [->|(r' & Hin & Hk)]; eauto.
    + intros (r' & [->|Hin] & Hk); eauto.
Qed.

Lemma group_keys_NoDup (R : list A) : NoDup (group_keys key R).
Proof. apply sorted_text_NoDup, group_keys_sorted. Qed.


Lemma sum_val_cons (r : A) (R : list A) :
  sum_val val (r :: R) = val r + sum_val val R.
Proof. reflexivity. Qed.

(** One row contributes to exactly one of a list of distinct keys. *)
Lemma sum_indicator (k0 : string) (v : Q) (ks : list string) :
  NoDup ks ->
  sumQ (map (fun k => if text_eqb k0 k then v else 0) ks)
  == if isin k0 ks then v else 0.
Proof.
  induction 1 as [|k ks Hnin Hnd IH]; simpl; [reflexivity|].
  rewrite IH. destruct (text_eqb k0 k) eqn:E; simpl.
  - apply text_eqb_eq in E. subst.
    apply isin_not_In in Hnin. rewrite Hnin. ring.
  - ring.
Qed.

(** The group sums over distinct keys add up to the sum of the rows
    whose key is among them. *)
Lemma group_sums_partition (ks : list string) (R : list A) :
  NoDup ks ->
  sumQ (map (fun k => sum_val val (group key k R)) ks)
  == sum_val val (filter (fun r => isin (key r) ks) R).
Proof.
  intros Hnd. induction R as [|r R IH].
  - simpl. induction ks as [|k ks IHk]; simpl; [reflexivity|].
    inversion Hnd; subst. rewrite IHk by assumption.
    unfold sum_val. simpl. ring.
  - assert (Hsplit :
      sumQ (map (fun k => sum_val val (group key k (r :: R))) ks)
      == sumQ (map (fun k => if text_eqb (key r) k then val r else 0) ks)
         + sumQ (map (fun k => sum_val val (group key k R)) ks)).
    { clear IH Hnd. induction ks as [|k ks IHk]; simpl; [ring|].
      rewrite IHk. unfold group at 1. simpl.
      destruct (text_eqb (key r) k); rewrite ?sum_val_cons;
        unfold group; ring. }
    rewrite Hsplit, IH, (sum_indicator _ _ _ Hnd). simpl.
    destruct (isin (key r) ks); rewrite ?sum_val_cons; ring.
Qed.

Lemma filter_all (p : A -> bool) (R : list A) :
  (forall r, In r R -> p r = true) -> filter p R = R.
Proof.
  induction R as [|r R IH]; simpl; intros H; [reflexivity|].
  rewrite (H r) by auto. f_equal. apply IH. auto.
Qed.

(** Conservation: the group sums of [groupby_sum] add up to the sum
    of the whole column. *)
Lemma groupby_sum_total (R : list A) :
  sumQ (map snd (groupby_sum key val R)) == sum_val val R.
Proof.
  unfold groupby_sum. rewrite map_map. simpl.
  rewrite (group_sums_partition _ _ (group_keys_NoDup R)).
  rewrite filter_all; [reflexivity|].
  intros r Hr. apply isin_In, group_keys_In. eauto.
Qed.

Lemma groupby_sum_keys (R : list A) :
  map fst (groupby_sum key val R) = group_keys key R.
Proof.
  unfold groupby_sum. rewrite map_map. simpl. apply map_id.
Qed.

End GroupFacts.

(** ** Sorting: a stable rearrangement *)


Lemma StronglySorted_app {A : Type} (R : A -> A -> Prop) (l1 l2 : list A) :
  StronglySorted R l1 -> StronglySorted R l2 ->
  (forall a b, In a l1 -> In b l2 -> R a b) ->
  StronglySorted R (l1 ++ l2)%list.
Proof.
  induction 1 as [|x l1 Hs IH Hall]; simpl; intros H2 Hc; [assumption|].
  constructor.
  - apply IH; auto.
  - apply Forall_app. split; [assumption|].
    apply Forall_forall. intros b Hb. apply Hc; auto.
Qed.

Lemma StronglySorted_rev {A : Type} (R : A -> A -> Prop) (l : list A) :
  StronglySorted R l -> StronglySorted (fun a b => R b a) (rev l).
Proof.
  induction 1 as [|x l Hs IH Hall]; simpl; [constructor|].
  apply StronglySorted_app; [assumption | repeat constructor |].
  intros a b Ha [<-|[]]. rewrite Forall_forall in Hall.
  apply Hall. now apply in_rev.
Qed.

Lemma StronglySorted_weaken {A : Type} (R R' : A -> A -> Prop) (l : list A) :
  (forall a b, R a b -> R' a b) -> StronglySorted R l -> StronglySorted R' l.
Proof.
  intros Himp. induction 1 as [|x l Hs IH Hall]; constructor; auto.
  eapply Forall_impl; [|exact Hall]. auto.
Qed.

Lemma firstn_In {A : Type} (n : nat) (l : list A) (y : A) :
  In y (firstn n l) -> In y l.
Proof.
  revert n. induction l as [|x l IH]; intros [|n]; simpl; try tauto.
  intros [H|H]; eauto.
Qed.

Lemma StronglySorted_firstn {A : Type} (R : A -> A -> Prop) (n : nat)
  (l : list A) :
  StronglySorted R l -> StronglySorted R (firstn n l).
Proof.
  intros H. revert n. induction H as [|x l Hs IH Hall]; intros [|n]; simpl;
    try constructor; auto.
  rewrite Forall_forall in *. intros y Hy. apply Hall.
  eapply firstn_In; eauto.
Qed.

Section SortFacts.

Context {A : Type}.
Variable by_ : A -> Q.

Lemma insert_asc_perm (x : A) (l : list A) :
  Permutation (insert_asc by_ x l) (x :: l).
Proof.
  induction l as [|h t IH]; simpl; [reflexivity|].
  destruct (Qle_bool (by_ x) (by_ h)); [reflexivity|].
  rewrite IH. apply perm_swap.
Qed.

Lemma argsort_perm (l : list A) : Permutation (argsort by_ l) l.
Proof.
  induction l as [|x l IH]; simpl; [reflexivity|].
  rewrite insert_asc_perm. now constructor.
Qed.

Lemma sort_values_perm (ascending : bool) (l : list A) :
  Permutation (sort_values by_ ascending l) l.
Proof.
  unfold sort_values. destruct ascending.
  - apply argsort_perm.
  - rewrite <- Permutation_rev, argsort_perm. symmetry. apply Permutation_rev.
Qed.


Lemma insert_asc_sorted (ord : A -> A -> Prop) (x : A) (l : list A) :
  Forall (ord x) l ->
  StronglySorted (asc_then by_ ord) l ->
  StronglySorted (asc_then by_ ord) (insert_asc by_ x l).
Proof.
  intros Hx Hs. induction Hs as [|h t Hs IH Hall]; simpl.
  - repeat constructor.
  - destruct (Qle_bool (by_ x) (by_ h)) eqn:E.
    + apply Qle_bool_iff in E.
      constructor; [constructor; assumption|].
      rewrite Forall_forall in *. intros y Hy.
      assert (Hhy : by_ h <= by_ y).
      { destruct Hy as [<-|Hy]; [apply Qle_refl|].
        destruct (Hall y Hy) as [Hlt|[Heq _]].
        - now apply Qlt_le_weak.
        - rewrite Heq. apply Qle_refl. }
      unfold asc_then.
      destruct (Qlt_le_dec (by_ x) (by_ y)) as [Hlt|Hle]; [now left|].
      right. split; [|now apply Hx]. apply Qle_antisym; [|assumption].
      now apply Qle_trans with (by_ h).
    + assert (Hlt : by_ h < by_ x).
      { apply Qnot_le_lt. intro Hle. apply Qle_bool_iff in Hle. congruence. }
      inversion Hx; subst.
      constructor; [apply IH; assumption|].
      rewrite Forall_forall in *. intros y Hy.
      apply (Permutation_in _ (insert_asc_perm x t)) in Hy.
      destruct Hy as [<-|Hy]; [now left | now apply Hall].
Qed.

Lemma argsort_sorted (ord : A -> A -> Prop) (l : list A) :
  StronglySorted ord l -> StronglySorted (asc_then by_ ord) (argsort by_ l).
Proof.
  induction 1 as [|x l Hs IH Hall]; simpl; [constructor|].
  apply insert_asc_sorted; [|assumption].
  rewrite Forall_forall in *. intros y Hy. apply Hall.
  exact (Permutation_in _ (argsort_perm l) Hy).
Qed.

(** Descending [sort_values] is stable too: a frame whose rows are
    ordered by [ord] comes out ordered by value, rows of equal value
    still ordered by [ord]. *)
Lemma sort_values_desc_sorted (ord : A -> A -> Prop) (l : list A) :
  StronglySorted ord l ->
  StronglySorted (desc_then by_ ord) (sort_values by_ false l).
Proof.
  intros Hs. unfold sort_values.
  apply StronglySorted_rev in Hs.
  apply (argsort_sorted (fun a b => ord b a)) in Hs.
  apply StronglySorted_rev in Hs.
  eapply StronglySorted_weaken; [|exact Hs]. clear.
  intros a b [H|[H1 H2]]; [now left | right; split; [now symmetry | assumption]].
Qed.

End SortFacts.

(** ** Rounding *)

Lemma rint_error (q : Q) : Qabs (inject_Z (rint q) - q) <= 1 # 2.
Proof.
  pose proof (Qfloor_le q) as Hlo. pose proof (Qlt_floor q) as Hhi.
  rewrite inject_Z_plus in Hhi. change (inject_Z 1) with 1 in Hhi.
  apply Qabs_Qle_condition. unfold rint.
  destruct (Qcompare_spec (q - inject_Z (Qfloor q)) (1 # 2)) as [He|Hl|Hg];
    [destruct (Z.even (Qfloor q))| |];
    rewrite ?inject_Z_plus; change (inject_Z 1) with 1;
    set (f := inject_Z (Qfloor q)) in *; clearbody f; split; lra.
Qed.








Lemma StronglySorted_map {B C : Type} (f : B -> C) (R : B -> B -> Prop)
  (R' : C -> C -> Prop) (l : list B) :
  (forall a b, R a b -> R' (f a) (f b)) ->
  StronglySorted R l -> StronglySorted R' (map f l).
Proof.
  intros Himp. induction 1 as [|x l Hs IH Hall]; simpl; constructor; auto.
  apply Forall_map. eapply Forall_impl; [|exact Hall]. auto.
Qed.

(** ** The category summary of analyze_expenses.py *)

Section AnalyzeFacts.

Context {A : Type}.
Variable cat : A -> string.
Variable amt : A -> Q.

Lemma category_summary_perm (df : list A) :
  Permutation (category_summary cat amt df)
              (map round_summary (agg_category cat amt df)).
Proof. apply sort_values_perm. Qed.

(** Every row of the summary is the rounded aggregate of its group. *)
Lemma category_summary_row (df : list A) (s : CategorySummary) :
  In s (category_summary cat amt df) ->
  let g := group cat (cs_category s) df in
  In (cs_category s) (group_keys cat df)
  /\ total s = round2 (sum_val amt g)
  /\ count s = List.length g
  /\ mean s = round2 (sum_val amt g / inject_Z (Z.of_nat (List.length g))).
Proof.
  intros Hin. apply (Permutation_in _ (category_summary_perm df)) in Hin.
  unfold agg_category in Hin. rewrite map_map in Hin.
  apply in_map_iff in Hin. destruct Hin as (k & <- & Hk). simpl. auto.
Qed.




End AnalyzeFacts.

Lemma category_pie_data_perm {A : Type} (cat : A -> string) (amt : A -> Q)
  (df : list A) :
  Permutation (category_pie_data cat amt df) (groupby_sum cat amt df).
Proof. apply sort_values_perm. Qed.


Lemma leading_category_cons (x : CategorySummary) (l : list CategorySummary) :
  leading_category (x :: l) = Ok (cs_category x, total x).
Proof.
  unfold leading_category, loc_summary. simpl.
  now rewrite text_eqb_refl.
Qed.

(** ** The filter of the dashboard *)

(** C1, as stated, fails: with the category selection ["transport"] and
    an empty month selection, the food record is still shown, although
    its category is not among the selected ones. *)
Lemma apply_filter_one_empty_selection :
  In lunch (apply_filter ["transport"] [] [lunch; transit])
  /\ ~ ((["transport"] = [] \/ In (category lunch) ["transport"])
        /\ (@nil string = [] \/ In (year_month lunch) [])).
Proof.
  split.
  - simpl. auto.
  - intros [[H|[H|[]]] _]; discriminate.
Qed.

(** C1 (amended): [apply_filter] keeps a record iff the category
    selection is empty, or the month selection is empty, or the record's
    category and year-month key are both among the selected ones; the
    kept records stay in frame order. *)
Theorem apply_filter_keeps (cats months : list string) (R : list LedgerRecord) :
  apply_filter cats months R
  = filter (fun r => negb (truthy cats) || negb (truthy months)
                     || (isin (category r) cats && isin (year_month r) months))
           R
  /\ forall r, In r (apply_filter cats months R) <->
               In r R /\ (cats = [] \/ months = []
                          \/ (In (category r) cats /\ In (year_month r) months)).
Proof.
  split.
  - unfold apply_filter.
    destruct cats as [|c cs]; [symmetry; now apply filter_all|].
    destruct months as [|m ms]; [symmetry; apply filter_all|reflexivity].
    intros. simpl. reflexivity.
  - intros r. unfold apply_filter.
    destruct cats as [|c cs]; simpl; [tauto|].
    destruct months as [|m ms]; simpl; [tauto|].
    rewrite filter_In, andb_true_iff.
    change (text_eqb (category r) c || isin (category r) cs)
      with (isin (category r) (c :: cs)).
    change (text_eqb (year_month r) m || isin (year_month r) ms)
      with (isin (year_month r) (m :: ms)).
    rewrite !isin_In. simpl. split.
    + intros (H & H1 & H2). auto.
    + intros (H & [H1|[H1|H1]]); try discriminate. auto.
Qed.

(** ** Conservation of the total *)




(** ** Order of the category summary *)


(** ** The leading category *)

(** C5, as stated, fails: on an empty summary the exception is the
    interpreter's [IndexError], not a [NoDataError]. *)
Lemma leading_category_empty_not_NoDataError :
  leading_category [] <> Raise (UserDefined "NoDataError").
Proof. discriminate. Qed.

(** C5 (amended): on an empty summary [leading_category] raises
    [IndexError], and so does [analyze_expenses] on an empty ledger; on
    a non-empty summary it returns the label and total of the first
    row. *)
Theorem leading_category_first :
  leading_category [] = Raise IndexError
  /\ analyze_expenses [] = Raise IndexError
  /\ forall x l, leading_category (x :: l) = Ok (cs_category x, total x).
Proof.
  split; [reflexivity|]. split; [reflexivity|]. apply leading_category_cons.
Qed.

(** ** Where the rounding happens *)



(** ** The n largest amounts *)

Lemma combine_seq_In {A : Type} (s : nat) (R : list A) (i : nat) (r : A) :
  In (i, r) (combine (seq s (List.length R)) R) ->
  (s <= i)%nat /\ nth_error R (i - s) = Some r.
Proof.
  revert s. induction R as [|x R IH]; simpl; intros s H; [tauto|].
  destruct H as [H|H].
  - inversion H; subst. rewrite Nat.sub_diag. auto.
  - apply IH in H. destruct H as [Hle Hn]. split; [lia|].
    replace (i - s)%nat with (S (i - S s)) by lia. exact Hn.
Qed.


Lemma enumerate_In {A : Type} (R : list A) (i : nat) (r : A) :
  In (i, r) (enumerate R) -> nth_error R i = Some r.
Proof.
  intros H. apply combine_seq_In in H. now rewrite Nat.sub_0_r in H.
Qed.




(** ** The month by category pivot *)

Lemma filter_andb {A : Type} (p q : A -> bool) (l : list A) :
  filter (fun r => p r && q r) l = filter q (filter p l).
Proof.
  induction l as [|x l IH]; simpl; [reflexivity|].
  destruct (p x); simpl; [destruct (q x)|]; now rewrite IH.
Qed.



Section SortTextFacts.

Context {A : Type}.
Variable by_ : A -> string.

(** Sorting a frame that is already in strictly ascending order of the
    column leaves it as it is. *)
Lemma sort_text_sorted (l : list A) :
  StronglySorted (fun a b => text_lt (by_ a) (by_ b)) l -> sort_text by_ l = l.
Proof.
  induction 1 as [|x l Hs IH Hall]; simpl; [reflexivity|].
  rewrite IH. destruct l as [|h t]; simpl; [reflexivity|].
  inversion Hall as [|? ? Hxh _]; subst.
  destruct (text_ltb (by_ h) (by_ x)) eqn:E; [|reflexivity].
  pose proof (text_lt_trans _ _ _ Hxh E) as Hc. unfold text_lt in Hc.
  rewrite text_ltb_irrefl in Hc. discriminate.
Qed.

End SortTextFacts.

Section PivotFacts.

Context {A : Type}.
Variable cat : A -> string.
Variable ym : A -> string.
Variable amt : A -> Q.


Lemma monthly_trend_data_all (df : list A) :
  monthly_trend_data cat ym amt df None = groupby_sum ym amt df.
Proof.
  unfold monthly_trend_data. apply sort_text_sorted.
  unfold groupby_sum.
  eapply StronglySorted_map; [|apply (group_keys_sorted ym)].
  intros a b H. exact H.
Qed.



End PivotFacts.


(** ** Columns of a frame *)

Lemma getitem_setitem_same (name : string) (col : column) (df : DataFrame) :
  getitem name (setitem name col df) = Ok col.
Proof.
  induction df as [|[n c] df IH]; simpl.
  - now rewrite text_eqb_refl.
  - destruct (text_eqb n name) eqn:E; simpl.
    + now rewrite text_eqb_refl.
    + now rewrite E.
Qed.

Lemma getitem_setitem_other (name name' : string) (col : column)
  (df : DataFrame) :
  name <> name' ->
  getitem name (setitem name' col df) = getitem name df.
Proof.
  intros Hne. induction df as [|[n c] df IH]; simpl.
  - destruct (text_eqb name' name) eqn:E; [|reflexivity].
    apply text_eqb_eq in E. congruence.
  - destruct (text_eqb n name') eqn:E; simpl.
    + apply text_eqb_eq in E. subst n.
      destruct (text_eqb name' name) eqn:E'; [|reflexivity].
      apply text_eqb_eq in E'. congruence.
    + now rewrite IH.
Qed.

Lemma has_column_getitem (name : string) (df : DataFrame) :
  has_column name df = true <-> exists col, getitem name df = Ok col.
Proof.
  induction df as [|[n c] df IH]; simpl.
  - split; [discriminate | intros [? H]; discriminate].
  - destruct (text_eqb n name); simpl; [|exact IH].
    split; eauto.
Qed.

Lemma traverse_Ok {A B : Type} (f : A -> result B) (l : list A) (l' : list B) :
  traverse f l = Ok l' <-> Forall2 (fun a b => f a = Ok b) l l'.
Proof.
  revert l'. induction l as [|a l IH]; simpl; intros l'.
  - split; [intros [= <-]; constructor | intros H; now inversion H].
  - destruct (f a) as [b|e] eqn:Ea; simpl.
    + destruct (traverse f l) as [bs|e] eqn:El; simpl.
      * split.
        -- intros [= <-]. constructor; [assumption | now apply IH].
        -- intros H. inversion H; subst. f_equal. f_equal; [congruence|].
           assert (Hb : Ok bs = Ok l'0) by now apply IH.
           congruence.
      * split; [discriminate|]. intros H. inversion H; subst.
        assert (Hb : Raise e = Ok l'0) by now apply IH. discriminate.
    + split; [discriminate|]. intros H. inversion H; subst. congruence.
Qed.

Lemma traverse_Raise {A B : Type} (f : A -> result B) (l : list A) (e : exn) :
  traverse f l = Raise e -> exists a, In a l /\ f a = Raise e.
Proof.
  induction l as [|a l IH]; simpl; [discriminate|].
  destruct (f a) as [b|e'] eqn:Ea; simpl.
  - destruct (traverse f l) as [bs|e'']; simpl; [discriminate|].
    intros [= <-]. destruct (IH Logic.eq_refl) as (a' & Hin & Ha'). eauto.
  - intros [= <-]. eauto.
Qed.

Lemma traverse_In_Raise {A B : Type} (f : A -> result B) (l : list A)
  (a : A) (e : exn) :
  In a l -> f a = Raise e -> exists e', traverse f l = Raise e'.
Proof.
  induction l as [|x l IH]; simpl; [tauto|].
  intros [->|Hin] Ha.
  - rewrite Ha. simpl. eauto.
  - destruct (f x); simpl; [|eauto].
    destruct (IH Hin Ha) as [e' ->]. simpl. eauto.
Qed.

Lemma traverse_length {A B : Type} (f : A -> result B) (l : list A)
  (l' : list B) :
  traverse f l = Ok l' -> List.length l' = List.length l.
Proof.
  intros H. apply traverse_Ok in H. symmetry. eapply Forall2_length, H.
Qed.

(** ** load_data *)

Ltac distinct_columns := apply text_eqb_neq; reflexivity.

Section LoadFacts.

Variable parse_text : string -> option Timestamp.
Variable parse_number : Q -> option Timestamp.

Lemma derive_columns_eq (df : DataFrame) :
  derive_columns parse_text parse_number df
  = d <- getitem col_date df ;;
    dates <- to_datetime parse_text parse_number d ;;
    Ok (loaded_frame dates df).
Proof.
  unfold derive_columns, loaded_frame.
  destruct (getitem col_date df) as [d|e]; simpl; [|reflexivity].
  destruct (to_datetime parse_text parse_number d) as [dates|e]; simpl;
    [|reflexivity].
  rewrite getitem_setitem_same. simpl.
  rewrite getitem_setitem_other, getitem_setitem_same by distinct_columns.
  simpl.
  rewrite !getitem_setitem_other, getitem_setitem_same by distinct_columns.
  reflexivity.
Qed.

Lemma required_columns_present (df : DataFrame) :
  forallb (fun c => has_column c df) required_columns = true <->
  forall c, In c required_columns -> has_column c df = true.
Proof. apply forallb_forall. Qed.

Lemma required_columns_absent (df : DataFrame) :
  forallb (fun c => has_column c df) required_columns = false <->
  exists c, In c required_columns /\ has_column c df = false.
Proof.
  split.
  - intros H. induction required_columns as [|c l IH]; simpl in *;
      [discriminate|].
    destruct (has_column c df) eqn:E; simpl in H.
    + destruct (IH H) as (c' & Hin & Hc'). eauto.
    + eauto.
  - intros (c & Hin & Hc).
    destruct (forallb _ required_columns) eqn:E; [|reflexivity].
    rewrite required_columns_present in E. rewrite (E c Hin) in Hc.
    discriminate.
Qed.

End LoadFacts.

(** C6, as stated, fails: a frame whose amounts cannot be read as
    numbers is loaded without any failure, amounts as they are. *)
Lemma load_data_accepts_unparsed_amounts :
  exists df',
    load_data iso_date epoch_ns (Ok unparsed_amounts) = (Some df', [])
    /\ getitem col_amount df' = Ok [CText "abc"; CNull].
Proof. eexists. split; vm_compute; reflexivity. Qed.

(** The outcomes of [load_data], case by case. *)
Lemma load_data_cases (parse_text : string -> option Timestamp)
  (parse_number : Q -> option Timestamp) (read_excel : result DataFrame) :
  (fst (load_data parse_text parse_number read_excel) = None <->
     (exists e, read_excel = Raise e)
     \/ (exists df c, read_excel = Ok df /\ In c required_columns
                      /\ has_column c df = false)
     \/ (exists df d c e, read_excel = Ok df /\ getitem col_date df = Ok d
                          /\ In c d
                          /\ to_datetime_cell parse_text parse_number c
                             = Raise e))
  /\ (forall df', fst (load_data parse_text parse_number read_excel) = Some df' ->
        snd (load_data parse_text parse_number read_excel) = []
        /\ exists df d dates,
             read_excel = Ok df /\ getitem col_date df = Ok d
             /\ Forall2 (fun c c' => to_datetime_cell parse_text parse_number c
                                     = Ok c') d dates
             /\ df' = loaded_frame dates df
             /\ getitem col_date df' = Ok dates
             /\ getitem col_item df' = getitem col_item df
             /\ getitem col_amount df' = getitem col_amount df
             /\ getitem col_category df' = getitem col_category df).
Proof.
  destruct read_excel as [df|e0].
  2:{ simpl. split; [|discriminate]. split; eauto. }
  unfold load_data.
  destruct (forallb (fun c => has_column c df) required_columns) eqn:Hreq.
  - assert (Hd : exists d, getitem col_date df = Ok d).
    { apply has_column_getitem. rewrite required_columns_present in Hreq.
      apply Hreq. simpl. auto. }
    destruct Hd as [d Hd].
    rewrite derive_columns_eq, Hd. cbn [bind].
    destruct (to_datetime parse_text parse_number d) as [dates|e] eqn:Hconv;
      cbn [bind fst snd].
    + split.
      * split; [discriminate|].
        intros [(e & He)|[(df0 & c & Hdf & Hin & Hc)|
                          (df0 & d0 & c & e & Hdf & Hd0 & Hin & Hc)]].
        -- discriminate.
        -- inversion Hdf; subst df0.
           rewrite required_columns_present in Hreq.
           rewrite (Hreq c Hin) in Hc. discriminate.
        -- inversion Hdf; subst df0. rewrite Hd in Hd0. inversion Hd0; subst d0.
           destruct (traverse_In_Raise _ _ _ _ Hin Hc) as [e' He'].
           unfold to_datetime in Hconv. congruence.
      * intros df' [= <-]. split; [reflexivity|].
        exists df, d, dates. split; [reflexivity|]. split; [assumption|].
        split; [now apply traverse_Ok|]. split; [reflexivity|].
        unfold loaded_frame.
        repeat split;
          repeat (rewrite getitem_setitem_other by distinct_columns);
          auto using getitem_setitem_same.
    + split; [|discriminate]. split; [|reflexivity]. intros _.
      right. right. apply traverse_Raise in Hconv.
      destruct Hconv as (c & Hin & Hc). exists df, d, c, e. auto.
  - cbn [fst snd]. split; [|discriminate]. split; [|reflexivity]. intros _.
    right. left. apply required_columns_absent in Hreq.
    destruct Hreq as (c & Hin & Hc). exists df, c. auto.
Qed.

(** C6 (amended): [load_data] returns [None], after one [st.error] and
    without raising, exactly when reading the file raised, or one of
    the four required columns is absent, or some 日期 value is refused
    by [pd.to_datetime]; it performs no conversion or check of 金額.
    When it returns a frame, that frame is the input with 日期
    converted and the three derived columns set: every row is kept and
    the 項目, 金額 and 類別 columns are as read. *)
Theorem load_data_outcome (parse_text : string -> option Timestamp)
  (parse_number : Q -> option Timestamp) (read_excel : result DataFrame) :
  (fst (load_data parse_text parse_number read_excel) = None <->
     (exists e, read_excel = Raise e)
     \/ (exists df c, read_excel = Ok df /\ In c required_columns
                      /\ has_column c df = false)
     \/ (exists df d c e, read_excel = Ok df /\ getitem col_date df = Ok d
                          /\ In c d
                          /\ to_datetime_cell parse_text parse_number c
                             = Raise e))
  /\ (forall df', fst (load_data parse_text parse_number read_excel) = Some df' ->
        snd (load_data parse_text parse_number read_excel) = []
        /\ exists df d dates,
             read_excel = Ok df /\ getitem col_date df = Ok d
             /\ Forall2 (fun c c' => to_datetime_cell parse_text parse_number c
                                     = Ok c') d dates
             /\ df' = loaded_frame dates df
             /\ getitem col_date df' = Ok dates
             /\ getitem col_item df' = getitem col_item df
             /\ getitem col_amount df' = getitem col_amount df
             /\ getitem col_category df' = getitem col_category df).
Proof. apply load_data_cases. Qed.

(** ** Year-month keys

    The key of a period can be read back: it determines the year and
    the month. *)

Lemma parse_digits_decimal (n : Z) : (0 <= n)%Z -> parse_digits (decimal n) = Some n.
Proof.
  intros Hn. unfold parse_digits, decimal, NilZero.string_of_uint.
  rewrite <- (Z2N.id n Hn) at 2.
  rewrite <- (DecimalN.Unsigned.of_to (Z.to_N n)) at 2.
  destruct (N.to_uint (Z.to_N n)) eqn:E;
    try (rewrite <- E at 1; rewrite NilEmpty.usu; rewrite E; reflexivity).
  reflexivity.
Qed.

Lemma parse_digits_zeros (k : nat) (s : string) :
  parse_digits (zeros k ++ s) = parse_digits s.
Proof.
  induction k as [|k IH]; simpl; [reflexivity|].
  unfold parse_digits in *. simpl.
  destruct (NilEmpty.uint_of_string (zeros k ++ s)) as [d|];
    destruct (NilEmpty.uint_of_string s) as [d'|]; simpl in *;
    try discriminate; try reflexivity.
  exact IH.
Qed.

Lemma parse_digits_pad0 (w : nat) (n : Z) :
  (0 <= n)%Z -> parse_digits (pad0 w (decimal n)) = Some n.
Proof.
  intros Hn. unfold pad0. now rewrite parse_digits_zeros, parse_digits_decimal.
Qed.

Lemma split_dash_digits (a b : string) (n : Z) :
  parse_digits a = Some n -> split_dash (a ++ String "-" b) = (a, b).
Proof.
  revert n. induction a as [|c a IH]; simpl; intros n H; [reflexivity|].
  unfold parse_digits in H. simpl in H.
  destruct (NilEmpty.uint_of_string a) as [d|] eqn:E; [|discriminate].
  assert (Ha : split_dash (a ++ String "-" b) = (a, b)).
  { apply (IH (Z.of_N (N.of_uint d))). unfold parse_digits. now rewrite E. }
  rewrite Ha. simpl.
  destruct (uint_of_char c (Some d)) as [d'|] eqn:Ec; [|discriminate].
  apply uint_of_char_spec in Ec.
  destruct (Ascii.eqb c "-") eqn:Ed; [|reflexivity].
  apply Ascii.eqb_eq in Ed. subst c.
  repeat (destruct Ec as [[Ec _]|Ec]; [discriminate|]).
  destruct Ec as [Ec _]. discriminate.
Qed.

Lemma unperiod_period_str (t : Timestamp) :
  (0 <= ts_year t)%Z -> (0 <= ts_month t)%Z ->
  unperiod (period_str t) = Some (ts_year t, ts_month t).
Proof.
  intros Hy Hm. unfold unperiod, period_str.
  change ("-" ++ pad0 2 (decimal (ts_month t)))
    with (String "-" (pad0 2 (decimal (ts_month t)))).
  rewrite (split_dash_digits _ _ _ (parse_digits_pad0 4 _ Hy)). simpl.
  now rewrite !parse_digits_pad0.
Qed.

Lemma period_str_inj (t u : Timestamp) :
  (0 <= ts_year t)%Z -> (0 <= ts_month t)%Z ->
  (0 <= ts_year u)%Z -> (0 <= ts_month u)%Z ->
  period_str t = period_str u ->
  ts_year t = ts_year u /\ ts_month t = ts_month u.
Proof.
  intros Hy Hm Hy' Hm' H.
  pose proof (unperiod_period_str t Hy Hm) as E.
  rewrite H, (unperiod_period_str u Hy' Hm') in E.
  inversion E. auto.
Qed.

Lemma valid_date_bounds (t : Timestamp) :
  valid_date t = true ->
  (1 <= ts_year t <= 9999)%Z /\ (1 <= ts_month t <= 12)%Z /\ (1 <= ts_day t)%Z.
Proof.
  unfold valid_date. rewrite !andb_true_iff, !Z.leb_le. lia.
Qed.

(** ** Derived calendar columns *)

Lemma loaded_frame_agree (dates : column) (df : DataFrame) :
  derived_fields_agree (loaded_frame dates df).
Proof.
  exists dates, (map astype_str (map dt_to_period dates)),
    (map dt_month dates), (map dt_year dates).
  assert (Hrow : forall i t, nth_error dates i = Some (CTime t) ->
            nth_error (map dt_year dates) i
            = Some (CNum (inject_Z (ts_year t)))
            /\ nth_error (map dt_month dates) i
               = Some (CNum (inject_Z (ts_month t)))
            /\ nth_error (map astype_str (map dt_to_period dates)) i
               = Some (CText (period_str t))).
  { intros i t H. rewrite !nth_error_map, H. simpl. auto. }
  assert (Hget : forall name col,
            In (name, col)
               [(col_date, dates);
                (col_year_month, map astype_str (map dt_to_period dates));
                (col_month, map dt_month dates);
                (col_year, map dt_year dates)] ->
            getitem name (loaded_frame dates df) = Ok col).
  { unfold loaded_frame. intros name col [H|[H|[H|[H|[]]]]];
      inversion H; subst;
      repeat (rewrite getitem_setitem_other by distinct_columns);
      apply getitem_setitem_same. }
  split; [apply Hget; simpl; auto|].
  split; [apply Hget; simpl; auto|].
  split; [apply Hget; simpl; auto|].
  split; [apply Hget; simpl; auto 6|].
  split; [exact Hrow|].
  intros i j t u Hi Hj Ht Hu.
  destruct (Hrow i t Hi) as (Hy & Hm & Hk).
  destruct (Hrow j u Hj) as (Hy' & Hm' & Hk').
  rewrite Hy, Hy', Hm, Hm', Hk, Hk'.
  apply valid_date_bounds in Ht, Hu. split.
  - intros E. inversion E as [E'].
    apply period_str_inj in E'; try lia. destruct E' as [-> ->]. auto.
  - intros [Ey Em]. inversion Ey as [Ey']. inversion Em as [Em'].
    unfold period_str. now rewrite Ey', Em'.
Qed.

(** C10: in every frame that [load_data] returns, the derived columns
    agree with the dates: year and month are those of the row's date,
    the year-month key is the key of that date, and rows have equal
    keys exactly when they have equal year and month. *)
Theorem derived_fields_consistent (parse_text : string -> option Timestamp)
  (parse_number : Q -> option Timestamp) (read_excel : result DataFrame)
  (df' : DataFrame) :
  fst (load_data parse_text parse_number read_excel) = Some df' ->
  derived_fields_agree df'.
Proof.
  intros H.
  destruct (proj2 (load_data_cases parse_text parse_number read_excel) df' H)
    as (_ & df & d & dates & _ & _ & _ & -> & _).
  apply loaded_frame_agree.
Qed.

Lemma derived_fields_consistent_witness :
  fst (load_data iso_date epoch_ns (Ok sample_frame))
  = Some (loaded_frame
            [CTime (mkTimestamp 2024 1 1); CTime (mkTimestamp 2024 1 2);
             CTime (mkTimestamp 2024 2 1)] sample_frame)
  /\ derived_fields_agree
       (loaded_frame
          [CTime (mkTimestamp 2024 1 1); CTime (mkTimestamp 2024 1 2);
           CTime (mkTimestamp 2024 2 1)] sample_frame).
Proof.
  assert (H : fst (load_data iso_date epoch_ns (Ok sample_frame))
              = Some (loaded_frame
                        [CTime (mkTimestamp 2024 1 1);
                         CTime (mkTimestamp 2024 1 2);
                         CTime (mkTimestamp 2024 2 1)] sample_frame))
    by (vm_compute; reflexivity).
  split; [exact H|].
  exact (derived_fields_consistent iso_date epoch_ns (Ok sample_frame) _ H).
Defined.

(** ** Effects on the caller's frame *)

Lemma update_nth_middle {A : Type} (l l' : list A) (x y : A) :
  update_nth (List.length l) y (l ++ x :: l')%list = (l ++ y :: l')%list.
Proof.
  induction l as [|a l IH]; simpl; [reflexivity|]. now rewrite IH.
Qed.

Lemma nth_update_nth {A : Type} (n : nat) (x d : A) (l : list A) :
  (n < List.length l)%nat -> nth n (update_nth n x l) d = x.
Proof.
  revert n. induction l as [|a l IH]; intros [|n]; simpl; intros H;
    try lia; [reflexivity|]. apply IH. lia.
Qed.

Lemma read_only_lift {A B : Type} (df : loc) (f : DataFrame -> result A)
  (g : A -> B) (h : heap) :
  snd ((frame <~ deref df ;; a <~ lift (f frame) ;; ret (g a)) h) = h.
Proof.
  unfold bindM, deref, lift, ret. now destruct (f (nth df h [])).
Qed.

Lemma dashboard_pie_read_only (df : loc) (h : heap) :
  snd (Dashboard.create_category_pie_chart df h) = h.
Proof. apply read_only_lift. Qed.

Lemma dashboard_monthly_read_only (df : loc) (sel : option (list string))
  (h : heap) :
  snd (Dashboard.create_monthly_trend_chart df sel h) = h.
Proof. apply read_only_lift. Qed.

Lemma dashboard_stacked_read_only (df : loc) (h : heap) :
  snd (Dashboard.create_category_monthly_stacked_chart df h) = h.
Proof.
  unfold Dashboard.create_category_monthly_stacked_chart, bindM, deref, lift.
  reflexivity.
Qed.

Lemma visualize_pie_read_only (df : loc) (h : heap) :
  snd (Visualize.create_category_pie_chart df h) = h.
Proof. apply read_only_lift. Qed.

Lemma dashboard_top_table_fresh (df : loc) (n : Z) (h : heap) :
  exists fresh,
    snd (Dashboard.create_top_expenses_table df n h) = (h ++ fresh)%list
    /\ forall l, fst (Dashboard.create_top_expenses_table df n h) = Ok l ->
                 (List.length h <= l < List.length h + List.length fresh)%nat.
Proof.
  unfold Dashboard.create_top_expenses_table, bindM, deref, lift, new_frame,
    df_getitem, df_setitem, ret, bindM, deref, lift.
  destruct (getitem col_amount (nth df h [])) as [amounts|e];
    [|exists []; rewrite app_nil_r; split; [reflexivity|discriminate]].
  destruct (nlargest_index n amounts) as [idx|e];
    [|exists []; rewrite app_nil_r; split; [reflexivity|discriminate]].
  cbn [fst snd].
  rewrite (nth_middle h [] (take_rows idx (nth df h [])) []).
  destruct (select_columns _ _) as [selection|e];
    [|eexists [_]; split; [reflexivity|discriminate]].
  replace (List.length (h ++ [take_rows idx (nth df h [])])%list)
    with (List.length (h ++ [take_rows idx (nth df h [])])%list + 0)%nat
    by lia.
  rewrite !app_nth2_plus. cbn [nth].
  destruct (getitem col_date selection) as [d|e];
    [|eexists [_; _]; rewrite <- app_assoc; split; [reflexivity|discriminate]].
  destruct (traverse dt_strftime d) as [formatted|e];
    [|eexists [_; _]; rewrite <- app_assoc; split; [reflexivity|discriminate]].
  rewrite Nat.add_0_r, update_nth_middle.
  replace (List.length (h ++ [take_rows idx (nth df h [])])%list)
    with (List.length (h ++ [take_rows idx (nth df h [])])%list + 0)%nat
    by lia.
  rewrite !app_nth2_plus. cbn [nth].
  destruct (getitem col_amount (setitem col_date formatted selection))
    as [a|e];
    [|eexists [_; _]; rewrite <- app_assoc; split; [reflexivity|discriminate]].
  rewrite Nat.add_0_r, update_nth_middle.
  eexists [_; _; _]. rewrite <- !app_assoc. cbn [app]. split; [reflexivity|].
  intros l [= <-]. rewrite !length_app. simpl. lia.
Qed.

Lemma update_nth_twice {A : Type} (n : nat) (x y : A) (l : list A) :
  update_nth n y (update_nth n x l) = update_nth n y l.
Proof.
  revert n. induction l as [|a l IH]; intros [|n]; simpl; try reflexivity.
  now rewrite IH.
Qed.

Lemma update_nth_length {A : Type} (n : nat) (x : A) (l : list A) :
  List.length (update_nth n x l) = List.length l.
Proof.
  revert n. induction l as [|a l IH]; intros [|n]; simpl; try reflexivity.
  now rewrite IH.
Qed.

Section VisualizeFacts.

Variable parse_text : string -> option Timestamp.
Variable parse_number : Q -> option Timestamp.

Lemma visualize_monthly_effect (df : loc) (h : heap) :
  snd (Visualize.create_monthly_trend_chart parse_text parse_number df h)
  = match d <- getitem col_date (nth df h []) ;;
          to_datetime parse_text parse_number d with
    | Ok dates => update_nth df (trend_chart_frame dates (nth df h [])) h
    | Raise _ => h
    end.
Proof.
  unfold Visualize.create_monthly_trend_chart, bindM, df_getitem, df_setitem,
    deref, lift, ret, bindM, deref, lift.
  destruct (Nat.lt_ge_cases df (List.length h)) as [Hlt|Hge].
  2:{ rewrite (nth_overflow h [] Hge). reflexivity. }
  destruct (getitem col_date (nth df h [])) as [d|e]; [|reflexivity].
  cbn [bind fst snd].
  destruct (to_datetime parse_text parse_number d) as [dates|e];
    [|reflexivity].
  rewrite !nth_update_nth by assumption.
  rewrite getitem_setitem_same.
  rewrite update_nth_twice, nth_update_nth
    by (rewrite ?update_nth_length; assumption).
  unfold trend_chart_frame.
  now destruct (frame_groupby_sum col_year_month _).
Qed.

End VisualizeFacts.

Lemma visualize_pivot_effect (parse_text : string -> option Timestamp)
  (parse_number : Q -> option Timestamp) (df : loc) (h : heap) :
  snd (Visualize.create_category_monthly_trend_chart parse_text parse_number
         df h)
  = match d <- getitem col_date (nth df h []) ;;
          to_datetime parse_text parse_number d with
    | Ok dates => update_nth df (trend_chart_frame dates (nth df h [])) h
    | Raise _ => h
    end.
Proof.
  unfold Visualize.create_category_monthly_trend_chart, bindM, df_getitem,
    df_setitem, deref, lift, ret, bindM, deref, lift.
  destruct (Nat.lt_ge_cases df (List.length h)) as [Hlt|Hge].
  2:{ rewrite (nth_overflow h [] Hge). reflexivity. }
  destruct (getitem col_date (nth df h [])) as [d|e]; [|reflexivity].
  cbn [bind fst snd].
  destruct (to_datetime parse_text parse_number d) as [dates|e];
    [|reflexivity].
  rewrite !nth_update_nth by assumption.
  rewrite getitem_setitem_same.
  rewrite update_nth_twice. reflexivity.
Qed.

Lemma trend_chart_frame_columns (dates : column) (df : DataFrame) :
  getitem col_year_month (trend_chart_frame dates df)
  = Ok (map dt_to_period dates)
  /\ getitem col_date (trend_chart_frame dates df) = Ok dates.
Proof.
  unfold trend_chart_frame. split.
  - apply getitem_setitem_same.
  - rewrite getitem_setitem_other by distinct_columns.
    apply getitem_setitem_same.
Qed.

(** C9, as stated, fails: after [create_monthly_trend_chart] of
    visualize_expenses.py the caller's frame has a 年月 column it did not
    have before, and its 日期 column holds the converted values. *)
Lemma visualize_monthly_trend_changes_input :
  let h' := snd (Visualize.create_monthly_trend_chart iso_date epoch_ns
                   0%nat [sample_frame]) in
  has_column col_year_month sample_frame = false
  /\ has_column col_year_month (nth 0 h' []) = true
  /\ getitem col_date (nth 0 h' []) <> getitem col_date sample_frame.
Proof.
  split; [reflexivity|]. split; [reflexivity|].
  vm_compute. discriminate.
Qed.

(** C9 (amended): the four aggregation functions of dashboard.py and
    the category chart of visualize_expenses.py leave every frame of
    the heap as it is, the top-expenses table being built in newly
    allocated frames; [create_monthly_trend_chart] and
    [create_category_monthly_trend_chart] of visualize_expenses.py, when
    the dates convert, replace the caller's frame by the same frame
    with 日期 converted and the column 年月 set, and leave it unchanged
    when the conversion raises. *)
Theorem aggregation_effects (parse_text : string -> option Timestamp)
  (parse_number : Q -> option Timestamp) (h : heap) (df : loc) (n : Z)
  (selected_categories : option (list string)) :
  snd (Dashboard.create_category_pie_chart df h) = h
  /\ snd (Dashboard.create_monthly_trend_chart df selected_categories h) = h
  /\ snd (Dashboard.create_category_monthly_stacked_chart df h) = h
  /\ (exists fresh,
        snd (Dashboard.create_top_expenses_table df n h) = (h ++ fresh)%list
        /\ forall l, fst (Dashboard.create_top_expenses_table df n h) = Ok l ->
                     (List.length h <= l < List.length h + List.length fresh)%nat)
  /\ snd (Visualize.create_category_pie_chart df h) = h
  /\ (forall d dates,
        (df < List.length h)%nat ->
        getitem col_date (nth df h []) = Ok d ->
        to_datetime parse_text parse_number d = Ok dates ->
        let h' := update_nth df (trend_chart_frame dates (nth df h [])) h in
        snd (Visualize.create_monthly_trend_chart parse_text parse_number df h)
        = h'
        /\ snd (Visualize.create_category_monthly_trend_chart
                  parse_text parse_number df h) = h'
        /\ getitem col_year_month (nth df h' [])
           = Ok (map dt_to_period dates)
        /\ getitem col_date (nth df h' []) = Ok dates)
  /\ (forall e,
        (d <- getitem col_date (nth df h []) ;;
         to_datetime parse_text parse_number d) = Raise e ->
        snd (Visualize.create_monthly_trend_chart parse_text parse_number df h)
        = h
        /\ snd (Visualize.create_category_monthly_trend_chart
                  parse_text parse_number df h) = h).
Proof.
  split; [apply dashboard_pie_read_only|].
  split; [apply dashboard_monthly_read_only|].
  split; [apply dashboard_stacked_read_only|].
  split; [apply dashboard_top_table_fresh|].
  split; [apply visualize_pie_read_only|].
  split.
  - intros d dates Hlt Hd Hconv h'.
    rewrite visualize_monthly_effect, visualize_pivot_effect, Hd.
    cbn [bind]. rewrite Hconv. subst h'.
    rewrite nth_update_nth by assumption.
    repeat split; apply trend_chart_frame_columns.
  - intros e He.
    rewrite visualize_monthly_effect, visualize_pivot_effect, He. auto.
Qed.

(** ** The frame functions on a well-typed ledger

    On the frame of a list of ledger records the functions that read a
    frame compute what the functions on records compute. *)




Section MapRows.

Context {A B : Type}.
Variable f : B -> A.
Variable key : A -> string.
Variable key' : B -> string.
Variable val : A -> Q.
Variable val' : B -> Q.
Hypothesis key_f : forall r, key (f r) = key' r.
Hypothesis val_f : forall r, val (f r) = val' r.

Lemma group_keys_map (R : list B) :
  group_keys key (map f R) = group_keys key' R.
Proof.
  induction R as [|r R IH]; simpl; [reflexivity|]. now rewrite IH, key_f.
Qed.




End MapRows.

Section MapSort.

Context {A B : Type}.
Variable f : B -> A.
Variable by_ : A -> Q.
Variable by_' : B -> Q.
Hypothesis by_f : forall r, by_ (f r) = by_' r.




End MapSort.


(** *** The rows read out of the frame of a ledger *)













(** ** The example ledger, evaluated *)

Example ledger_category_order :
  map cs_category (category_summary category amount [lunch; transit; movie])
  = ["entertainment"; "food"; "transport"].
Proof. reflexivity. Qed.

Example ledger_leading_category :
  exists summary a,
    analyze_expenses [lunch; transit; movie] = Ok (summary, "entertainment", a)
    /\ a == 280.
Proof. eexists _, _. split; [vm_compute|]; reflexivity. Qed.

Example ledger_monthly :
  monthly_trend_data category year_month amount [lunch; transit; movie] None
  = [("2024-01", 180); ("2024-02", 280)].
Proof. reflexivity. Qed.

Example ledger_top_two :
  map snd (nlargest amount 2 (enumerate [lunch; transit; movie]))
  = [movie; lunch].
Proof. reflexivity. Qed.

(** * Further properties *)

(** ** Distinct values *)

Lemma unique_from_In (seen l : list string) (x : string) :
  In x (unique_from seen l) <-> In x l /\ ~ In x seen.
Proof.
  revert seen. induction l as [|y l IH]; intros seen; simpl; [tauto|].
  destruct (isin y seen) eqn:E.
  - apply isin_In in E. rewrite IH. split.
    + tauto.
    + intros [[->|H] Hn]; tauto.
  - apply isin_not_In in E. simpl. rewrite IH. simpl. split.
    + intros [->|[H Hn]]; [tauto|]. split; [tauto|]. intro. apply Hn. tauto.
    + intros [[->|H] Hn]; [tauto|].
      destruct (string_dec y x) as [->|Hne]; [tauto|]. right. split; [exact H|].
      intros [Heq|Hs]; [congruence | tauto].
Qed.

Lemma unique_from_NoDup (seen l : list string) : NoDup (unique_from seen l).
Proof.
  revert seen. induction l as [|y l IH]; intros seen; simpl; [constructor|].
  destruct (isin y seen); [apply IH|].
  constructor; [|apply IH].
  rewrite unique_from_In. simpl. tauto.
Qed.

Lemma unique_In (l : list string) (x : string) : In x (unique l) <-> In x l.
Proof. unfold unique. rewrite unique_from_In. simpl. tauto. Qed.

Lemma unique_NoDup (l : list string) : NoDup (unique l).
Proof. apply unique_from_NoDup. Qed.

Lemma group_keys_of_map {A : Type} (key : A -> string) (R : list A) :
  group_keys (fun s : string => s) (map key R) = group_keys key R.
Proof. now apply group_keys_map. Qed.

(** The distinct values are the group keys, up to order. *)
Lemma unique_group_keys {A : Type} (key : A -> string) (R : list A) :
  Permutation (unique (map key R)) (group_keys key R).
Proof.
  apply NoDup_Permutation.
  - apply unique_NoDup.
  - apply group_keys_NoDup.
  - intros x. rewrite unique_In, group_keys_In, in_map_iff.
    split; intros (r & H1 & H2); exists r; tauto.
Qed.

(** ** Sorting text *)

Lemma text_le_trans (a b c : string) : text_le a b -> text_le b c -> text_le a c.
Proof.
  unfold text_le. intros Hab Hbc.
  destruct (text_ltb c a) eqn:Hca; [|reflexivity].
  destruct (text_ltb a b) eqn:Hlt.
  - pose proof (text_lt_trans _ _ _ Hca Hlt) as H. unfold text_lt in H.
    congruence.
  - pose proof (text_ltb_total _ _ Hlt Hab). subst. congruence.
Qed.

Section SortTextMore.

Context {A : Type}.
Variable by_ : A -> string.

Lemma insert_text_perm (x : A) (l : list A) :
  Permutation (insert_text by_ x l) (x :: l).
Proof.
  induction l as [|h t IH]; simpl; [reflexivity|].
  destruct (text_ltb (by_ h) (by_ x)); [|reflexivity].
  rewrite IH. apply perm_swap.
Qed.

Lemma sort_text_perm (l : list A) : Permutation (sort_text by_ l) l.
Proof.
  induction l as [|x l IH]; simpl; [reflexivity|].
  rewrite insert_text_perm. now constructor.
Qed.

Lemma insert_text_le (x : A) (l : list A) :
  StronglySorted (fun a b => text_le (by_ a) (by_ b)) l ->
  StronglySorted (fun a b => text_le (by_ a) (by_ b)) (insert_text by_ x l).
Proof.
  induction 1 as [|h t Hs IH Hall]; simpl; [repeat constructor|].
  destruct (text_ltb (by_ h) (by_ x)) eqn:E.
  - constructor; [assumption|].
    rewrite Forall_forall in *. intros y Hy.
    apply (Permutation_in _ (insert_text_perm x t)) in Hy.
    destruct Hy as [<-|Hy]; [|auto].
    unfold text_le. destruct (text_ltb (by_ x) (by_ h)) eqn:E'; [|reflexivity].
    pose proof (text_lt_trans _ _ _ E E') as H. unfold text_lt in H.
    rewrite text_ltb_irrefl in H. discriminate.
  - constructor; [constructor; assumption|].
    constructor; [exact E|].
    rewrite Forall_forall in *. intros y Hy.
    eapply text_le_trans; [exact E | auto].
Qed.

Lemma sort_text_le (l : list A) :
  StronglySorted (fun a b => text_le (by_ a) (by_ b)) (sort_text by_ l).
Proof.
  induction l as [|x l IH]; simpl; [constructor | now apply insert_text_le].
Qed.

End SortTextMore.

Lemma sorted_le_NoDup_lt (l : list string) :
  NoDup l -> StronglySorted text_le l -> StronglySorted text_lt l.
Proof.
  intros Hnd Hs. induction Hs as [|x l Hs IH Hall]; [constructor|].
  inversion Hnd as [|? ? Hnin Hnd']; subst.
  constructor; [auto|].
  rewrite Forall_forall in *. intros y Hy. specialize (Hall y Hy).
  unfold text_lt, text_le in *.
  destruct (text_ltb x y) eqn:E; [reflexivity|].
  pose proof (text_ltb_total _ _ E Hall). subst. contradiction.
Qed.

(** Two strictly ascending lists with the same elements are equal. *)
Lemma sorted_text_unique (l1 l2 : list string) :
  StronglySorted text_lt l1 -> StronglySorted text_lt l2 ->
  (forall x, In x l1 <-> In x l2) -> l1 = l2.
Proof.
  intros H1. revert l2. induction H1 as [|x l1 Hs1 IH Hall1];
    intros l2 H2 Hin.
  - destruct l2 as [|y l2]; [reflexivity|].
    exfalso. apply (Hin y). now left.
  - destruct H2 as [|y l2 Hs2 Hall2].
    + exfalso. apply (Hin x). now left.
    + rewrite Forall_forall in Hall1, Hall2.
      assert (Hxy : x = y).
      { destruct (proj1 (Hin x) (or_introl Logic.eq_refl)) as [Hy|Hy];
          [now symmetry|].
        destruct (proj2 (Hin y) (or_introl Logic.eq_refl)) as [Hx|Hx];
          [assumption|].
        pose proof (text_lt_trans _ _ _ (Hall1 _ Hx) (Hall2 _ Hy)) as H.
        unfold text_lt in H. rewrite text_ltb_irrefl in H. discriminate. }
      subst y. f_equal. apply IH; [assumption|].
      intros z. split; intros Hz.
      * destruct (proj1 (Hin z) (or_intror Hz)) as [<-|H]; [|assumption].
        pose proof (Hall1 _ Hz) as H. unfold text_lt in H.
        rewrite text_ltb_irrefl in H. discriminate.
      * destruct (proj2 (Hin z) (or_intror Hz)) as [<-|H]; [|assumption].
        pose proof (Hall2 _ Hz) as H. unfold text_lt in H.
        rewrite text_ltb_irrefl in H. discriminate.
Qed.

(** ** The selections and the metrics of the dashboard *)

Lemma all_months_group_keys (R : list LedgerRecord) :
  all_months R = group_keys year_month R.
Proof.
  unfold all_months. apply sorted_text_unique.
  - apply sorted_le_NoDup_lt.
    + eapply Permutation_NoDup; [symmetry; apply sort_text_perm|].
      apply unique_NoDup.
    + apply (sort_text_le (fun s : string => s)).
  - apply group_keys_sorted.
  - intros x. split; intros H.
    + apply (Permutation_in _ (sort_text_perm _ _)) in H.
      now apply (Permutation_in _ (unique_group_keys _ _)) in H.
    + apply (Permutation_in _ (Permutation_sym (sort_text_perm _ _))).
      now apply (Permutation_in _ (Permutation_sym (unique_group_keys _ _))).
Qed.

(** X1: the options of the month filter are the months of the
    unfiltered monthly chart, in the same order; the options of the
    category filter are the categories of the category chart, each
    once, in order of first appearance. *)
Theorem filter_options_match_charts (R : list LedgerRecord) :
  all_months R
  = map fst (monthly_trend_data category year_month amount R None)
  /\ Permutation (all_categories R)
                 (map fst (category_pie_data category amount R))
  /\ NoDup (all_categories R)
  /\ (forall c, In c (all_categories R) <-> exists r, In r R /\ category r = c).
Proof.
  split; [|split; [|split]].
  - rewrite monthly_trend_data_all, groupby_sum_keys.
    apply all_months_group_keys.
  - unfold all_categories. rewrite unique_group_keys.
    rewrite <- (groupby_sum_keys category amount R).
    apply Permutation_map. symmetry. apply category_pie_data_perm.
  - apply unique_NoDup.
  - intros c. unfold all_categories. rewrite unique_In, in_map_iff.
    split; intros (r & H1 & H2); exists r; tauto.
Qed.

(** X2: with the default selections of [main], every category and
    every month, the filter returns the whole frame. *)
Theorem default_selection_shows_all (R : list LedgerRecord) :
  apply_filter (all_categories R) (all_months R) R = R.
Proof.
  unfold apply_filter.
  destruct (truthy (all_categories R) && truthy (all_months R));
    [|reflexivity].
  apply filter_all. intros r Hr. apply andb_true_iff. split; apply isin_In.
  - unfold all_categories. apply unique_In, in_map, Hr.
  - rewrite all_months_group_keys. apply group_keys_In. eauto.
Qed.

Lemma sum_val_const_one {A : Type} (l : list A) :
  sum_val (fun _ : A => 1) l == inject_Z (Z.of_nat (List.length l)).
Proof.
  unfold sum_val. induction l as [|x l IH]; [reflexivity|].
  cbn [map sumQ fold_right List.length]. fold (sumQ (map (fun _ : A => 1) l)).
  rewrite IH, Nat2Z.inj_succ, <- Z.add_1_l, inject_Z_plus. reflexivity.
Qed.


(** ** What [main] shows *)


Lemma length_zero_nil {A : Type} (l : list A) :
  Nat.eqb (List.length l) 0 = true <-> l = [].
Proof. destruct l; simpl; split; congruence. Qed.

Lemma filter_nil_iff {A : Type} (p : A -> bool) (l : list A) :
  filter p l = [] <-> forall x, In x l -> p x = false.
Proof.
  induction l as [|a l IH]; simpl; [tauto|].
  destruct (p a) eqn:E.
  - split; [discriminate|]. intros H. specialize (H a (or_introl Logic.eq_refl)).
    congruence.
  - rewrite IH. split; [intros H x [<-|Hx]; auto | auto].
Qed.

(** X4: [main] shows the no-match warning exactly when the frame has
    no rows, or both selections are non-empty and no record has both
    its category and its month selected. *)
Theorem no_match_warning (R : list LedgerRecord) (cats months : list string) :
  main_view R cats months = NoMatch <->
  R = [] \/ (cats <> [] /\ months <> []
             /\ forall r, In r R ->
                          ~ (In (category r) cats /\ In (year_month r) months)).
Proof.
  unfold main_view.
  destruct (Nat.eqb (List.length (apply_filter cats months R)) 0) eqn:E.
  - apply length_zero_nil in E. split; [intros _|reflexivity].
    unfold apply_filter in E.
    destruct cats as [|c cs]; [now left|].
    destruct months as [|m ms]; [now left|]. cbn [truthy andb] in E.
    right. split; [discriminate|]. split; [discriminate|].
    intros r Hr [Hc Hm]. rewrite filter_nil_iff in E. specialize (E r Hr).
    apply isin_In in Hc, Hm. rewrite Hc, Hm in E. discriminate.
  - split; [discriminate|]. intros H. exfalso.
    assert (Hnil : apply_filter cats months R = []).
    { unfold apply_filter. destruct H as [->|(Hc & Hm & Hno)].
      - now destruct (truthy cats && truthy months).
      - destruct cats as [|c cs]; [congruence|].
        destruct months as [|m ms]; [congruence|]. cbn [truthy andb].
        apply filter_nil_iff. intros r Hr.
        destruct (isin (category r) (c :: cs)) eqn:E1; [|reflexivity].
        destruct (isin (year_month r) (m :: ms)) eqn:E2; [|reflexivity].
        exfalso. apply (Hno r Hr). split; now apply isin_In. }
    rewrite Hnil in E. discriminate.
Qed.




(** ** The long form of the pivot *)




Section MeltFacts.

Context {A : Type}.
Variable cat : A -> string.
Variable ym : A -> string.
Variable amt : A -> Q.





End MeltFacts.



Lemma monthly_trend_data_eq {A : Type} (cat ym : A -> string) (amt : A -> Q)
  (df : list A) (sel : option (list string)) :
  monthly_trend_data cat ym amt df sel
  = groupby_sum ym amt
      match sel with
      | Some (c :: l) => filter (fun r => isin (cat r) (c :: l)) df
      | _ => df
      end.
Proof.
  unfold monthly_trend_data. apply sort_text_sorted. unfold groupby_sum.
  eapply StronglySorted_map; [|apply (group_keys_sorted ym)].
  intros a b H. exact H.
Qed.

Lemma main_trend_chart_filter_aux (R : list LedgerRecord) (c m : string)
  (cs ms : list string) :
  monthly_trend_data category year_month amount
    (apply_filter (c :: cs) (m :: ms) R) (Some (c :: cs))
  = groupby_sum year_month amount
      (filter (fun r => isin (category r) (c :: cs)
                        && isin (year_month r) (m :: ms)) R).
Proof.
  rewrite monthly_trend_data_eq. unfold apply_filter. cbn [truthy andb].
  f_equal. rewrite <- filter_andb. apply filter_ext. intros r.
  destruct (isin (category r) (c :: cs)); simpl; [|reflexivity].
  now rewrite andb_true_r.
Qed.

(** X6: the monthly chart of [main] is filtered a second time by the
    selected categories: it sums, month by month, the records whose
    category is selected (when any category is selected) and whose
    month is selected (when both selections are non-empty). With
    categories selected and no month selected it is therefore
    restricted to the selected categories, while the other charts show
    every record. *)
Theorem main_trend_chart_filter (R : list LedgerRecord)
  (cats months : list string) :
  monthly_trend_data category year_month amount
    (apply_filter cats months R) (Some cats)
  = groupby_sum year_month amount
      (filter (fun r =>
                 (negb (truthy cats) || isin (category r) cats)
                 && (negb (truthy cats) || negb (truthy months)
                     || isin (year_month r) months))
              R).
Proof.
  rewrite monthly_trend_data_eq. unfold apply_filter.
  destruct cats as [|c cs]; cbn [truthy negb andb orb].
  - now rewrite filter_all.
  - destruct months as [|m ms]; cbn [truthy negb andb orb].
    + f_equal. apply filter_ext. intros r. now rewrite andb_true_r.
    + f_equal. rewrite <- filter_andb. apply filter_ext. intros r.
      destruct (isin (category r) (c :: cs)); simpl; [|reflexivity].
      now rewrite andb_true_r.
Qed.

(** X7: with both selections non-empty, every slice of the category
    chart is a selected category and every bar of the monthly chart a
    selected month, and each value is the sum of the records of the
    frame with that label that match both selections. *)
Theorem filtered_charts_show_selection (R : list LedgerRecord)
  (c m : string) (cs ms : list string) :
  let matching :=
    filter (fun r => isin (category r) (c :: cs)
                     && isin (year_month r) (m :: ms)) R in
  (forall x t,
     In (x, t) (category_pie_data category amount
                  (apply_filter (c :: cs) (m :: ms) R)) ->
     In x (c :: cs) /\ t = sum_amount (group category x matching))
  /\ (forall x t,
        In (x, t) (monthly_trend_data category year_month amount
                     (apply_filter (c :: cs) (m :: ms) R) (Some (c :: cs))) ->
        In x (m :: ms) /\ t = sum_amount (group year_month x matching)).
Proof.
  cbv zeta.
  set (matching := filter (fun r => isin (category r) (c :: cs)
                                    && isin (year_month r) (m :: ms)) R).
  assert (Hf : apply_filter (c :: cs) (m :: ms) R = matching) by reflexivity.
  split.
  - intros x t Hin. rewrite Hf in Hin.
    apply (Permutation_in _ (category_pie_data_perm _ _ _)) in Hin.
    unfold groupby_sum in Hin. apply in_map_iff in Hin.
    destruct Hin as (k & Heq & Hk). inversion Heq; subst. split; [|reflexivity].
    apply group_keys_In in Hk. destruct Hk as (r & Hr & <-).
    apply filter_In in Hr. destruct Hr as [_ Hb].
    apply andb_true_iff in Hb. now apply isin_In.
  - intros x t Hin. rewrite main_trend_chart_filter_aux in Hin.
    unfold groupby_sum in Hin. apply in_map_iff in Hin.
    destruct Hin as (k & Heq & Hk). inversion Heq; subst. split; [|reflexivity].
    apply group_keys_In in Hk. destruct Hk as (r & Hr & <-).
    apply filter_In in Hr. destruct Hr as [_ Hb].
    apply andb_true_iff in Hb. now apply isin_In.
Qed.



(** ** analyze_expenses.py: when it fails and what it returns *)





Lemma list_sum_perm (l l' : list nat) :
  Permutation l l' -> list_sum l = list_sum l'.
Proof. induction 1; simpl; lia. Qed.

Lemma group_lengths_partition {A : Type} (key : A -> string) (R : list A) :
  list_sum (map (fun k => List.length (group key k R)) (group_keys key R))
  = List.length R.
Proof.
  pose proof (groupby_sum_total key (fun _ : A => 1) R) as H.
  unfold groupby_sum in H. rewrite map_map in H. cbn [snd] in H.
  rewrite sum_val_const_one in H.
  assert (E : forall ks,
            sumQ (map (fun k => sum_val (fun _ : A => 1) (group key k R)) ks)
            == inject_Z (Z.of_nat
                 (list_sum (map (fun k => List.length (group key k R)) ks)))).
  { induction ks as [|k ks IH]; [reflexivity|].
    cbn [map sumQ fold_right list_sum].
    fold (sumQ (map (fun k => sum_val (fun _ : A => 1) (group key k R)) ks)).
    rewrite IH, sum_val_const_one, Nat2Z.inj_add, inject_Z_plus.
    reflexivity. }
  rewrite E in H. apply (proj1 (inject_Z_injective _ _)) in H. lia.
Qed.

(** X11: the category summary has one row per category of the ledger,
    no category twice; every row counts at least one record and the
    counts add up to the number of records. *)
Theorem category_summary_partition (R : list LedgerRecord) :
  let S := category_summary category amount R in
  NoDup (map cs_category S)
  /\ (forall c, In c (map cs_category S) <->
                exists r, In r R /\ category r = c)
  /\ Forall (fun s => (1 <= count s)%nat) S
  /\ list_sum (map count S) = List.length R.
Proof.
  cbv zeta.
  pose proof (category_summary_perm category amount R) as HP.
  assert (Hlab : map cs_category
                   (map round_summary (agg_category category amount R))
                 = group_keys category R).
  { unfold agg_category. rewrite !map_map. cbn [round_summary cs_category].
    apply map_id. }
  split; [|split; [|split]].
  - eapply Permutation_NoDup.
    + symmetry. apply Permutation_map. exact HP.
    + rewrite Hlab. apply group_keys_NoDup.
  - intros c. rewrite <- group_keys_In, <- Hlab. split; intros H.
    + exact (Permutation_in _ (Permutation_map cs_category HP) H).
    + exact (Permutation_in _
               (Permutation_sym (Permutation_map cs_category HP)) H).
  - apply Forall_forall. intros s Hs.
    destruct (category_summary_row category amount R s Hs)
      as (Hk & _ & Hc & _).
    rewrite Hc. apply group_keys_In in Hk. destruct Hk as (r & Hr & Hkey).
    assert (Hin : In r (group category (cs_category s) R)).
    { apply filter_In. split; [assumption|]. now apply text_eqb_eq. }
    destruct (group category (cs_category s) R); [contradiction|simpl; lia].
  - rewrite (list_sum_perm _ _ (Permutation_map count HP)).
    unfold agg_category. rewrite !map_map. cbn [round_summary count].
    apply group_lengths_partition.
Qed.

(** ** load_data: the other columns, and loading again *)

Lemma setitem_names (name : string) (col : column) (df : DataFrame) :
  map fst (setitem name col df)
  = if has_column name df then map fst df else (map fst df ++ [name])%list.
Proof.
  induction df as [|[n c] df IH]; [reflexivity|].
  cbn [setitem has_column existsb fst map].
  destruct (text_eqb n name) eqn:E; cbn [orb map fst].
  - apply text_eqb_eq in E. now subst.
  - fold (has_column name df). rewrite IH.
    now destruct (has_column name df).
Qed.

Lemma has_column_setitem (name n : string) (col : column) (df : DataFrame) :
  has_column name (setitem n col df)
  = (has_column name df || text_eqb n name)%bool.
Proof.
  induction df as [|[n' c] df IH].
  - cbn. now rewrite orb_false_r.
  - cbn [setitem]. destruct (text_eqb n' n) eqn:E.
    + apply text_eqb_eq in E. subst n'. cbn [has_column existsb fst].
      destruct (text_eqb n name); [reflexivity|]. cbn [orb].
      now rewrite orb_false_r.
    + cbn [has_column existsb fst]. fold (has_column name (setitem n col df)).
      fold (has_column name df). rewrite IH.
      now rewrite orb_assoc.
Qed.

Lemma setitem_unchanged (name : string) (col : column) (df : DataFrame) :
  getitem name df = Ok col -> setitem name col df = df.
Proof.
  induction df as [|[n c] df IH]; [discriminate|].
  cbn [getitem setitem]. destruct (text_eqb n name) eqn:E.
  - apply text_eqb_eq in E. intros [= <-]. now subst.
  - intros H. now rewrite IH.
Qed.

Lemma to_datetime_cell_fixed (parse_text : string -> option Timestamp)
  (parse_number : Q -> option Timestamp) (c c' : cell) :
  to_datetime_cell parse_text parse_number c = Ok c' ->
  to_datetime_cell parse_text parse_number c' = Ok c'.
Proof.
  destruct c as [q|s|t|y m|]; cbn.
  - destruct (parse_number q); [|discriminate]. now intros [= <-].
  - destruct (parse_text s); [|discriminate]. now intros [= <-].
  - now intros [= <-].
  - discriminate.
  - now intros [= <-].
Qed.

Lemma to_datetime_fixed (parse_text : string -> option Timestamp)
  (parse_number : Q -> option Timestamp) (d dates : column) :
  to_datetime parse_text parse_number d = Ok dates ->
  to_datetime parse_text parse_number dates = Ok dates.
Proof.
  unfold to_datetime. intros H. apply traverse_Ok in H. apply traverse_Ok.
  induction H as [|c c' d dates Hc _ IH]; constructor; [|assumption].
  eapply to_datetime_cell_fixed, Hc.
Qed.

Lemma loaded_frame_columns (dates : column) (df : DataFrame) :
  getitem col_date (loaded_frame dates df) = Ok dates
  /\ getitem col_year_month (loaded_frame dates df)
     = Ok (map astype_str (map dt_to_period dates))
  /\ getitem col_month (loaded_frame dates df) = Ok (map dt_month dates)
  /\ getitem col_year (loaded_frame dates df) = Ok (map dt_year dates).
Proof.
  unfold loaded_frame.
  repeat split;
    repeat (rewrite getitem_setitem_other by distinct_columns);
    apply getitem_setitem_same.
Qed.

Lemma loaded_frame_fixed (dates : column) (df : DataFrame) :
  loaded_frame dates (loaded_frame dates df) = loaded_frame dates df.
Proof.
  destruct (loaded_frame_columns dates df) as (Hd & Hk & Hm & Hy).
  unfold loaded_frame at 1.
  now rewrite (setitem_unchanged _ _ _ Hd), (setitem_unchanged _ _ _ Hk),
    (setitem_unchanged _ _ _ Hm), (setitem_unchanged _ _ _ Hy).
Qed.

Lemma loaded_frame_has_column (name : string) (dates : column)
  (df : DataFrame) :
  has_column name df = true -> has_column name (loaded_frame dates df) = true.
Proof.
  intros H. unfold loaded_frame. rewrite !has_column_setitem, H. reflexivity.
Qed.

(** X12: loading the frame that [load_data] returned gives that same
    frame again, without any error. *)
Theorem load_data_idempotent (parse_text : string -> option Timestamp)
  (parse_number : Q -> option Timestamp) (read_excel : result DataFrame)
  (df' : DataFrame) :
  fst (load_data parse_text parse_number read_excel) = Some df' ->
  load_data parse_text parse_number (Ok df') = (Some df', []).
Proof.
  intros H.
  destruct (proj2 (load_data_cases parse_text parse_number read_excel) df' H)
    as (_ & df & d & dates & -> & Hd & Hconv & -> & _).
  apply traverse_Ok in Hconv. fold (to_datetime parse_text parse_number d) in Hconv.
  assert (Hreq : forallb (fun c => has_column c df) required_columns = true).
  { cbn [load_data] in H.
    destruct (forallb (fun c => has_column c df) required_columns);
      [reflexivity | discriminate]. }
  unfold load_data.
  assert (Hreq' : forallb (fun c => has_column c (loaded_frame dates df))
                          required_columns = true).
  { rewrite forallb_forall in *. intros c Hc.
    apply loaded_frame_has_column, Hreq, Hc. }
  rewrite Hreq', derive_columns_eq.
  rewrite (proj1 (loaded_frame_columns dates df)). cbn [bind].
  rewrite (to_datetime_fixed _ _ _ _ Hconv). cbn [bind].
  now rewrite loaded_frame_fixed.
Qed.

Lemma load_data_idempotent_witness :
  fst (load_data iso_date epoch_ns (Ok sample_frame))
  = Some (loaded_frame
            [CTime (mkTimestamp 2024 1 1); CTime (mkTimestamp 2024 1 2);
             CTime (mkTimestamp 2024 2 1)] sample_frame)
  /\ load_data iso_date epoch_ns
       (Ok (loaded_frame
              [CTime (mkTimestamp 2024 1 1); CTime (mkTimestamp 2024 1 2);
               CTime (mkTimestamp 2024 2 1)] sample_frame))
     = (Some (loaded_frame
                [CTime (mkTimestamp 2024 1 1); CTime (mkTimestamp 2024 1 2);
                 CTime (mkTimestamp 2024 2 1)] sample_frame), []).
Proof.
  assert (H : fst (load_data iso_date epoch_ns (Ok sample_frame))
              = Some (loaded_frame
                        [CTime (mkTimestamp 2024 1 1);
                         CTime (mkTimestamp 2024 1 2);
                         CTime (mkTimestamp 2024 2 1)] sample_frame))
    by (vm_compute; reflexivity).
  split; [exact H|].
  exact (load_data_idempotent iso_date epoch_ns (Ok sample_frame) _ H).
Defined.

(** X13: [load_data] keeps every column of the frame it read, leaves
    the columns it does not compute as they were read, whatever their
    names, and appends the derived columns 年月, 月份, 年份 at the end
    when the file has no column of these names. *)
Theorem load_data_keeps_columns (parse_text : string -> option Timestamp)
  (parse_number : Q -> option Timestamp) (df df' : DataFrame) :
  fst (load_data parse_text parse_number (Ok df)) = Some df' ->
  columns_kept df df'.
Proof.
  intros H.
  destruct (proj2 (load_data_cases parse_text parse_number (Ok df)) df' H)
    as (_ & df0 & d & dates & [= <-] & Hd & _ & -> & _).
  split; [|split].
  - intros name. apply loaded_frame_has_column.
  - intros name Hn. unfold loaded_frame.
    rewrite !getitem_setitem_other; [reflexivity| | | |];
      intros ->; apply Hn; simpl; auto.
  - intros Hk Hm Hy.
    assert (Hdate : has_column col_date df = true).
    { apply has_column_getitem. eauto. }
    unfold loaded_frame.
    rewrite setitem_names, !has_column_setitem, Hy.
    rewrite setitem_names, !has_column_setitem, Hm.
    rewrite setitem_names, !has_column_setitem, Hk.
    rewrite setitem_names, Hdate.
    cbn. now rewrite <- !app_assoc.
Qed.

Lemma load_data_keeps_columns_witness :
  fst (load_data iso_date epoch_ns (Ok sample_frame))
  = Some (loaded_frame
            [CTime (mkTimestamp 2024 1 1); CTime (mkTimestamp 2024 1 2);
             CTime (mkTimestamp 2024 2 1)] sample_frame)
  /\ columns_kept sample_frame
       (loaded_frame
          [CTime (mkTimestamp 2024 1 1); CTime (mkTimestamp 2024 1 2);
           CTime (mkTimestamp 2024 2 1)] sample_frame).
Proof.
  assert (H : fst (load_data iso_date epoch_ns (Ok sample_frame))
              = Some (loaded_frame
                        [CTime (mkTimestamp 2024 1 1);
                         CTime (mkTimestamp 2024 1 2);
                         CTime (mkTimestamp 2024 2 1)] sample_frame))
    by (vm_compute; reflexivity).
  split; [exact H|].
  exact (load_data_keeps_columns iso_date epoch_ns sample_frame _ H).
Defined.

(** ** The texts shown for amounts and dates *)

Lemma digits_no_comma (s : string) (n : Z) :
  parse_digits s = Some n ->
  Forall (fun c => Ascii.eqb c "," = false) (list_ascii_of_string s).
Proof.
  revert n. induction s as [|c s IH]; intros n H; [constructor|].
  unfold parse_digits in H. cbn [NilEmpty.uint_of_string] in H.
  destruct (NilEmpty.uint_of_string s) as [d|] eqn:E; [|discriminate].
  cbn [list_ascii_of_string]. constructor.
  - destruct (uint_of_char c (Some d)) as [d'|] eqn:Ec; [|discriminate].
    apply uint_of_char_spec in Ec.
    destruct (Ascii.eqb c ",") eqn:Ed; [|reflexivity].
    apply Ascii.eqb_eq in Ed. subst c.
    repeat (destruct Ec as [[Ec _]|Ec]; [discriminate|]).
    destruct Ec as [Ec _]. discriminate.
  - apply (IH (Z.of_N (N.of_uint d))). unfold parse_digits. now rewrite E.
Qed.

Lemma remove_commas_commas_rev (l : list ascii) (k : nat) :
  Forall (fun c => Ascii.eqb c "," = false) l ->
  remove_commas (commas_rev l k) = l.
Proof.
  intros H. revert k. induction H as [|c l Hc Hl IH]; intros k;
    [reflexivity|].
  cbn [commas_rev]. destruct l as [|c' l'].
  - unfold remove_commas. cbn. now rewrite Hc.
  - destruct (Nat.eqb k 2); unfold remove_commas in *; cbn [filter];
      rewrite Hc; cbn [negb]; rewrite ?Ascii.eqb_refl; cbn [negb];
      f_equal; apply IH.
Qed.

Lemma remove_commas_rev (l : list ascii) :
  remove_commas (rev l) = rev (remove_commas l).
Proof.
  unfold remove_commas. induction l as [|c l IH]; [reflexivity|].
  cbn [rev filter]. rewrite filter_app, IH. cbn [filter].
  now destruct (negb (Ascii.eqb c ",")); cbn; rewrite ?app_nil_r.
Qed.

(** In the grouped digits, read from the right, every fourth place
    holds a comma and no other place does; [k] digits of the current
    group are already written. *)
Lemma commas_rev_places (l : list ascii) (k i : nat) :
  Forall (fun c => Ascii.eqb c "," = false) l ->
  (k <= 2)%nat ->
  (i < List.length (commas_rev l k))%nat ->
  (Ascii.eqb (nth i (commas_rev l k) "0"%char) "," = true
   <-> ((i + k) mod 4 = 3)%nat).
Proof.
  intros H. revert k i. induction H as [|c l Hc Hl IH]; intros k i Hk Hi.
  - cbn in Hi. lia.
  - cbn [commas_rev] in *. destruct l as [|c' l'].
    + cbn in Hi. assert (i = 0)%nat by lia. subst i. cbn [nth]. rewrite Hc.
      split; [discriminate|]. intros Hm.
      assert (k = 0 \/ k = 1 \/ k = 2)%nat as [-> | [-> | ->]] by lia;
        cbn in Hm; discriminate.
    + destruct (Nat.eqb k 2) eqn:E.
      * apply Nat.eqb_eq in E. subst k.
        destruct i as [|[|i]].
        -- cbn [nth]. rewrite Hc. split; [discriminate|].
           cbn. discriminate.
        -- cbn [nth]. split; [reflexivity | intros _; reflexivity].
        -- cbn [nth]. cbn [List.length] in Hi.
           rewrite (IH 0%nat i) by lia.
           replace (S (S i) + 2)%nat with (i + 0 + 1 * 4)%nat by lia.
           now rewrite Nat.Div0.mod_add.
      * apply Nat.eqb_neq in E.
        destruct i as [|i].
        -- cbn [nth]. rewrite Hc. split; [discriminate|]. intros Hm.
           assert (k = 0 \/ k = 1)%nat as [-> | ->] by lia; cbn in Hm;
             discriminate.
        -- cbn [nth]. cbn [List.length] in Hi.
           rewrite (IH (S k) i) by lia.
           now replace (S i + k)%nat with (i + S k)%nat by lia.
Qed.

(** X14: the text of an amount is "$", a minus sign for a negative
    amount, and the digits of the amount rounded to an integer (halves
    to even), with a comma before every group of three digits counted
    from the right; without the commas the digits read back as the
    absolute value of the rounded amount. *)
Theorem format_money_reads_back (x : Q) :
  exists body : list ascii,
    format_money x
    = "$" ++ (if Qle_bool 0 x then "" else "-") ++ string_of_list_ascii body
    /\ parse_digits (string_of_list_ascii (remove_commas body))
       = Some (Z.abs (rint x))
    /\ (forall i, (i < List.length body)%nat ->
          (Ascii.eqb (nth i (rev body) "0"%char) "," = true
           <-> (i mod 4 = 3)%nat))
    /\ Qabs (inject_Z (rint x) - x) <= 1 # 2.
Proof.
  set (digits := list_ascii_of_string (decimal (Z.abs (rint x)))).
  assert (Hparse : parse_digits (decimal (Z.abs (rint x)))
                   = Some (Z.abs (rint x)))
    by (apply parse_digits_decimal, Z.abs_nonneg).
  assert (Hd : Forall (fun c => Ascii.eqb c "," = false) (rev digits)).
  { apply Forall_rev. exact (digits_no_comma _ _ Hparse). }
  exists (rev (commas_rev (rev digits) 0)).
  split; [reflexivity|]. split; [|split; [|apply rint_error]].
  - rewrite remove_commas_rev, (remove_commas_commas_rev _ _ Hd), rev_involutive.
    unfold digits. now rewrite string_of_list_ascii_of_string.
  - intros i Hi. rewrite rev_involutive. rewrite length_rev in Hi.
    rewrite (commas_rev_places _ 0 i Hd) by (assumption || lia).
    now rewrite Nat.add_0_r.
Qed.

Lemma undate_strftime_ymd (t : Timestamp) :
  (0 <= ts_year t)%Z -> (0 <= ts_month t)%Z -> (0 <= ts_day t)%Z ->
  undate (strftime_ymd t) = Some (ts_year t, ts_month t, ts_day t).
Proof.
  intros Hy Hm Hd. unfold undate, strftime_ymd.
  change ("-" ++ pad0 2 (decimal (ts_month t))
          ++ "-" ++ pad0 2 (decimal (ts_day t)))
    with (String "-" (pad0 2 (decimal (ts_month t))
                      ++ String "-" (pad0 2 (decimal (ts_day t))))).
  rewrite (split_dash_digits _ _ _ (parse_digits_pad0 4 _ Hy)).
  cbn [fst snd].
  rewrite (split_dash_digits _ _ _ (parse_digits_pad0 2 _ Hm)).
  cbn [fst snd]. now rewrite !parse_digits_pad0.
Qed.

(** X15: the text of a date in the top-expenses table reads back as
    the year, month and day of that date, so two dates with the same
    text are the same day. *)
Theorem strftime_ymd_reads_back (t u : Timestamp) :
  valid_date t = true -> valid_date u = true ->
  undate (strftime_ymd t) = Some (ts_year t, ts_month t, ts_day t)
  /\ (strftime_ymd t = strftime_ymd u -> t = u).
Proof.
  intros Ht Hu. apply valid_date_bounds in Ht, Hu.
  assert (E : undate (strftime_ymd t) = Some (ts_year t, ts_month t, ts_day t))
    by (apply undate_strftime_ymd; lia).
  split; [exact E|]. intros H. rewrite H in E.
  rewrite undate_strftime_ymd in E by lia.
  destruct t, u. cbn in E. now inversion E.
Qed.

Lemma strftime_ymd_reads_back_witness :
  valid_date (mkTimestamp 2024 1 1) = true
  /\ valid_date (mkTimestamp 2024 1 2) = true
  /\ undate (strftime_ymd (mkTimestamp 2024 1 1)) = Some (2024, 1, 1)%Z
  /\ (strftime_ymd (mkTimestamp 2024 1 1) = strftime_ymd (mkTimestamp 2024 1 2)
      -> mkTimestamp 2024 1 1 = mkTimestamp 2024 1 2).
Proof.
  split; [reflexivity|]. split; [reflexivity|].
  exact (strftime_ymd_reads_back (mkTimestamp 2024 1 1) (mkTimestamp 2024 1 2)
           Logic.eq_refl Logic.eq_refl).
Defined.

(** ** visualize_expenses.py: the charts in sequence *)

Lemma trend_chart_frame_fixed (dates : column) (df : DataFrame) :
  trend_chart_frame dates (trend_chart_frame dates df)
  = trend_chart_frame dates df.
Proof.
  destruct (trend_chart_frame_columns dates df) as [Hk Hd].
  unfold trend_chart_frame at 1.
  now rewrite (setitem_unchanged _ _ _ Hd), (setitem_unchanged _ _ _ Hk).
Qed.

Lemma nth_update_nth_other {A : Type} (n m : nat) (x d : A) (l : list A) :
  n <> m -> nth m (update_nth n x l) d = nth m l d.
Proof.
  revert n m. induction l as [|a l IH]; intros [|n] [|m] H; simpl;
    try reflexivity; try congruence.
  apply IH. congruence.
Qed.

Section TrendChartFacts.

Variable parse_text : string -> option Timestamp.
Variable parse_number : Q -> option Timestamp.

(** What [create_monthly_trend_chart] draws. *)
Lemma visualize_monthly_result (df : loc) (h : heap) :
  fst (Visualize.create_monthly_trend_chart parse_text parse_number df h)
  = d <- getitem col_date (nth df h []) ;;
    dates <- to_datetime parse_text parse_number d ;;
    monthly <- frame_groupby_sum col_year_month
                 (trend_chart_frame dates (nth df h [])) ;;
    Ok (sort_text fst monthly).
Proof.
  unfold Visualize.create_monthly_trend_chart, bindM, df_getitem, df_setitem,
    deref, lift, ret, bindM, deref, lift.
  destruct (Nat.lt_ge_cases df (List.length h)) as [Hlt|Hge].
  2:{ rewrite (nth_overflow h [] Hge). reflexivity. }
  destruct (getitem col_date (nth df h [])) as [d|e]; [|reflexivity].
  cbn [bind fst snd].
  destruct (to_datetime parse_text parse_number d) as [dates|e];
    [|reflexivity].
  rewrite !nth_update_nth by assumption.
  rewrite getitem_setitem_same.
  rewrite update_nth_twice, nth_update_nth
    by (rewrite ?update_nth_length; assumption).
  unfold trend_chart_frame. cbn [bind].
  now destruct (frame_groupby_sum col_year_month _).
Qed.

(** The frame at [df] after either trend chart, when it was changed. *)
Lemma trend_effect_cases (df : loc) (h : heap) :
  let h1 := match d <- getitem col_date (nth df h []) ;;
                  to_datetime parse_text parse_number d with
            | Ok dates => update_nth df (trend_chart_frame dates (nth df h [])) h
            | Raise _ => h
            end in
  (d <- getitem col_date (nth df h1 []) ;;
   to_datetime parse_text parse_number d)
  = match d <- getitem col_date (nth df h []) ;;
          to_datetime parse_text parse_number d with
    | Ok dates => Ok dates
    | Raise e => Raise e
    end
  /\ match d <- getitem col_date (nth df h []) ;;
           to_datetime parse_text parse_number d with
     | Ok dates => nth df h1 [] = trend_chart_frame dates (nth df h [])
     | Raise _ => h1 = h
     end.
Proof.
  cbv zeta.
  destruct (Nat.lt_ge_cases df (List.length h)) as [Hlt|Hge].
  2:{ rewrite (nth_overflow h [] Hge). cbn. rewrite (nth_overflow h [] Hge).
      split; reflexivity. }
  destruct (getitem col_date (nth df h [])) as [d|e] eqn:Hd; cbn [bind].
  2:{ rewrite Hd. split; reflexivity. }
  destruct (to_datetime parse_text parse_number d) as [dates|e] eqn:Hc.
  2:{ rewrite Hd. cbn [bind]. rewrite Hc. split; reflexivity. }
  rewrite nth_update_nth by assumption.
  rewrite (proj2 (trend_chart_frame_columns dates (nth df h []))).
  cbn [bind]. rewrite (to_datetime_fixed _ _ _ _ Hc). split; reflexivity.
Qed.

End TrendChartFacts.

(** X16: the two trend charts of visualize_expenses.py assign to the
    caller's frame once: after [create_monthly_trend_chart], running
    [create_category_monthly_trend_chart] or the monthly chart again
    leaves the heap as it is and the monthly chart draws the same bars;
    no other frame of the heap is touched and no frame is added. *)
Theorem trend_charts_assign_once (parse_text : string -> option Timestamp)
  (parse_number : Q -> option Timestamp) (df : loc) (h : heap) :
  let h1 := snd (Visualize.create_monthly_trend_chart
                   parse_text parse_number df h) in
  snd (Visualize.create_category_monthly_trend_chart
         parse_text parse_number df h1) = h1
  /\ snd (Visualize.create_monthly_trend_chart parse_text parse_number df h1)
     = h1
  /\ fst (Visualize.create_monthly_trend_chart parse_text parse_number df h1)
     = fst (Visualize.create_monthly_trend_chart parse_text parse_number df h)
  /\ List.length h1 = List.length h
  /\ (forall l, l <> df -> nth l h1 [] = nth l h []).
Proof.
  cbv zeta. rewrite !visualize_monthly_result.
  rewrite !visualize_pivot_effect, !visualize_monthly_effect.
  destruct (trend_effect_cases parse_text parse_number df h) as [Hconv Hfr].
  cbv zeta in Hconv, Hfr.
  set (h1 := match d <- getitem col_date (nth df h []) ;;
                   to_datetime parse_text parse_number d with
             | Ok dates =>
                 update_nth df (trend_chart_frame dates (nth df h [])) h
             | Raise _ => h
             end) in *.
  destruct (d <- getitem col_date (nth df h []) ;;
            to_datetime parse_text parse_number d) as [dates|e] eqn:E.
  - assert (Hh1 : update_nth df (trend_chart_frame dates (nth df h1 [])) h1
                  = h1).
    { rewrite Hfr, trend_chart_frame_fixed. unfold h1.
      now rewrite update_nth_twice. }
    fold h1. rewrite Hconv, Hh1.
    split; [reflexivity|]. split; [reflexivity|]. split.
    + destruct (getitem col_date (nth df h1 [])) as [d1|e1] eqn:Hd1;
        [|discriminate].
      cbn [bind] in Hconv |- *. rewrite Hconv. cbn [bind].
      destruct (getitem col_date (nth df h [])) as [d0|e0] eqn:Hd0;
        [|discriminate].
      cbn [bind] in E |- *. rewrite E. cbn [bind].
      now rewrite Hfr, trend_chart_frame_fixed.
    + split; [apply update_nth_length|].
      intros l Hl. unfold h1. apply nth_update_nth_other. congruence.
  - subst h1. rewrite E.
    split; [reflexivity|]. split; [reflexivity|]. split; [reflexivity|].
    split; reflexivity.
Qed.







(** ** The rows [nlargest] selects from a frame *)

Lemma enumerate_fst {A : Type} (l : list A) :
  map fst (enumerate l) = seq 0 (List.length l).
Proof.
  unfold enumerate. generalize 0%nat.
  induction l as [|a l IH]; intros s; simpl; [reflexivity|]. now rewrite IH.
Qed.

Lemma split_present_absent (rows : list (nat * option Q)) :
  Permutation
    (map fst (flat_map (fun r : nat * option Q =>
                          match snd r with
                          | Some q => [(fst r, q)]
                          | None => []
                          end) rows)
     ++ flat_map (fun r : nat * option Q =>
                    match snd r with
                    | Some _ => []
                    | None => [fst r]
                    end) rows)%list
    (map fst rows).
Proof.
  induction rows as [|[i [q|]] rows IH]; simpl; [reflexivity| |].
  - now constructor.
  - rewrite <- Permutation_middle. now constructor.
Qed.

Lemma NoDup_firstn {A : Type} (n : nat) (l : list A) :
  NoDup l -> NoDup (firstn n l).
Proof.
  intros H. rewrite <- (firstn_skipn n l) in H.
  now apply NoDup_app_remove_r in H.
Qed.

Lemma StronglySorted_map_Forall {B C : Type} (f : B -> C) (P : B -> Prop)
  (R : B -> B -> Prop) (R' : C -> C -> Prop) (l : list B) :
  (forall a b, P a -> P b -> R a b -> R' (f a) (f b)) ->
  Forall P l -> StronglySorted R l -> StronglySorted R' (map f l).
Proof.
  intros Himp HP Hs. induction Hs as [|x l Hs IH Hall]; simpl;
    [constructor|].
  inversion HP as [|? ? Hx HP']; subst. constructor; [auto|].
  apply Forall_map. rewrite Forall_forall in *. intros y Hy. auto.
Qed.

Lemma StronglySorted_trivial {B : Type} (R : B -> B -> Prop) (l : list B) :
  (forall a b, In b l -> R a b) -> StronglySorted R l.
Proof.
  induction l as [|x l IH]; intros H; constructor.
  - apply IH. intros a b Hb. apply H. now right.
  - apply Forall_forall. intros y Hy. apply H. now right.
Qed.

Lemma amount_of_Some (c : cell) (q : Q) :
  amount_of c = Ok (Some q) -> c = CNum q.
Proof. destruct c; cbn; congruence. Qed.

Lemma amount_of_None (c : cell) : amount_of c = Ok None -> c = CNull.
Proof. destruct c; cbn; congruence. Qed.

Lemma amount_of_Raise (c : cell) (e : exn) :
  amount_of c = Raise e ->
  e = TypeError /\ (forall q, c <> CNum q) /\ c <> CNull.
Proof.
  destruct c; cbn; try discriminate; intros [= <-];
    repeat split; congruence.
Qed.

Lemma Forall2_nth_error {B C : Type} (P : B -> C -> Prop) (l : list B)
  (l' : list C) (i : nat) (c : C) :
  Forall2 P l l' -> nth_error l' i = Some c ->
  exists b, nth_error l i = Some b /\ P b c.
Proof.
  intros H. revert i. induction H as [|b c' l l' Hb _ IH]; intros [|i];
    simpl; try discriminate.
  - intros [= <-]. eauto.
  - apply IH.
Qed.

(** X18: on the 金額 column of a frame, [nlargest] raises only
    [TypeError], and only when the column holds something that is
    neither a number nor empty; otherwise it selects [min n rows]
    distinct row positions of the frame, the numbers in descending
    order first and the rows with an empty amount after them. *)
Theorem nlargest_index_selection (n : Z) (amounts : column) :
  match nlargest_index n amounts with
  | Raise e =>
      e = TypeError
      /\ exists c, In c amounts /\ (forall q, c <> CNum q) /\ c <> CNull
  | Ok idx =>
      List.length idx = Nat.min (Z.to_nat n) (List.length amounts)
      /\ NoDup idx
      /\ Forall (fun i => (i < List.length amounts)%nat) idx
      /\ StronglySorted (ranks_before amounts) idx
  end.
Proof.
  unfold nlargest_index.
  destruct (traverse amount_of amounts) as [vs|e] eqn:Hvs; cbn [bind].
  2:{ apply traverse_Raise in Hvs. destruct Hvs as (c & Hin & Hc).
      apply amount_of_Raise in Hc. destruct Hc as (-> & Hq & Hn). eauto. }
  pose proof (traverse_length _ _ _ Hvs) as Hlen.
  apply traverse_Ok in Hvs.
  set (present := flat_map (fun r : nat * option Q =>
                              match snd r with
                              | Some q => [(fst r, q)]
                              | None => []
                              end) (enumerate vs)).
  set (absent := flat_map (fun r : nat * option Q =>
                             match snd r with
                             | Some _ => []
                             | None => [fst r]
                             end) (enumerate vs)).
  set (sorted := sort_values snd false present).
  assert (HP : Permutation (map fst sorted ++ absent)%list
                           (seq 0 (List.length amounts))).
  { rewrite <- Hlen, <- enumerate_fst, <- split_present_absent.
    apply Permutation_app_tail, Permutation_map, sort_values_perm. }
  assert (Hpresent : Forall (fun r : nat * Q =>
                               nth_error amounts (fst r) = Some (CNum (snd r)))
                            present).
  { apply Forall_forall. intros [i q] Hin. unfold present in Hin.
    apply in_flat_map in Hin. destruct Hin as ([j [v|]] & Hj & Hv);
      cbn [fst snd] in Hv; [|contradiction].
    destruct Hv as [[= <- <-]|[]].
    apply enumerate_In in Hj.
    destruct (Forall2_nth_error _ _ _ _ _ Hvs Hj) as (c & Hc & Ha).
    apply amount_of_Some in Ha. now subst. }
  assert (Habsent : Forall (fun i => nth_error amounts i = Some CNull) absent).
  { apply Forall_forall. intros i Hin. unfold absent in Hin.
    apply in_flat_map in Hin. destruct Hin as ([j [v|]] & Hj & Hv);
      cbn [fst snd] in Hv; [contradiction|].
    destruct Hv as [<-|[]].
    apply enumerate_In in Hj.
    destruct (Forall2_nth_error _ _ _ _ _ Hvs Hj) as (c & Hc & Ha).
    apply amount_of_None in Ha. now subst. }
  split; [|split; [|split]].
  - rewrite length_firstn. f_equal.
    rewrite (Permutation_length HP). apply length_seq.
  - apply NoDup_firstn.
    eapply Permutation_NoDup; [symmetry; exact HP | apply seq_NoDup].
  - apply Forall_forall. intros i Hi. apply firstn_In in Hi.
    apply (Permutation_in _ HP), in_seq in Hi. lia.
  - apply StronglySorted_firstn, StronglySorted_app.
    + apply (StronglySorted_map_Forall fst
               (fun r : nat * Q =>
                  nth_error amounts (fst r) = Some (CNum (snd r)))
               (desc_then snd (fun _ _ => True))).
      * intros [i a] [j b] Hi Hj Hr c Hc. cbn [fst snd] in *.
        rewrite Hj in Hc. inversion Hc; subst c. exists a. split; [exact Hi|].
        destruct Hr as [H|[H _]]; cbn [snd] in H;
          [now apply Qlt_le_weak | rewrite H; apply Qle_refl].
      * rewrite Forall_forall in *. intros r Hr. apply Hpresent.
        exact (Permutation_in _ (sort_values_perm _ _ _) Hr).
      * apply sort_values_desc_sorted, StronglySorted_trivial. auto.
    + apply StronglySorted_trivial. intros i j Hj b Hb.
      rewrite Forall_forall in Habsent. rewrite (Habsent j Hj) in Hb.
      discriminate.
    + intros i j _ Hj b Hb.
      rewrite Forall_forall in Habsent. rewrite (Habsent j Hj) in Hb.
      discriminate.
Qed.

(** ** dashboard.py on the frame of a ledger *)





(** ** Missing columns and empty dates *)

Lemma getitem_Raise (name : string) (df : DataFrame) (e : exn) :
  getitem name df = Raise e -> e = KeyError name /\ has_column name df = false.
Proof.
  induction df as [|[n c] df IH]; cbn [getitem has_column existsb fst].
  - intros [= <-]. auto.
  - destruct (text_eqb n name); [discriminate|]. cbn [orb]. exact IH.
Qed.

Lemma getitem_Ok_has_column (name : string) (df : DataFrame) (col : column) :
  getitem name df = Ok col -> has_column name df = true.
Proof. intros H. apply has_column_getitem. eauto. Qed.

Lemma key_of_Raise (c : cell) (e : exn) : key_of c = Raise e -> e = TypeError.
Proof. destruct c; cbn; congruence. Qed.

Lemma num_of_Raise (c : cell) (e : exn) : num_of c = Raise e -> e = TypeError.
Proof. destruct c; cbn; congruence. Qed.

Lemma frame_groupby_sum_KeyError (key_col : string) (frame : DataFrame)
  (k : string) :
  frame_groupby_sum key_col frame = Raise (KeyError k) <->
  (has_column key_col frame = false /\ k = key_col)
  \/ (has_column key_col frame = true /\ has_column col_amount frame = false
      /\ k = col_amount).
Proof.
  unfold frame_groupby_sum, rows_kv.
  destruct (getitem key_col frame) as [ks|e] eqn:Hk; cbn [bind].
  - apply getitem_Ok_has_column in Hk.
    destruct (getitem col_amount frame) as [vs|e] eqn:Ha; cbn [bind].
    + apply getitem_Ok_has_column in Ha. split.
      * destruct (traverse key_of ks) as [ks'|e] eqn:E1; cbn [bind].
        -- destruct (traverse num_of vs) as [vs'|e] eqn:E2; cbn [bind];
             [discriminate|].
           intros [= ->]. apply traverse_Raise in E2.
           destruct E2 as (c & _ & Hc). apply num_of_Raise in Hc. discriminate.
        -- intros [= ->]. apply traverse_Raise in E1.
           destruct E1 as (c & _ & Hc). apply key_of_Raise in Hc. discriminate.
      * intros [[H _]|(_ & H & _)]; congruence.
    + apply getitem_Raise in Ha. destruct Ha as [-> Ha]. split.
      * intros [= <-]. right. auto.
      * intros [[H _]|(_ & _ & ->)]; [congruence | reflexivity].
  - apply getitem_Raise in Hk. destruct Hk as [-> Hk]. split.
    + intros [= <-]. left. auto.
    + intros [[_ ->]|(H & _)]; [reflexivity | congruence].
Qed.

(** X21: the category chart and the monthly chart fail with [KeyError]
    exactly when the frame lacks the grouping column, or has it and
    lacks 金額; the error names the missing column, the grouping column
    first; and the frame is left as it is. *)
Theorem chart_missing_column (df : loc) (h : heap) (k : string) :
  (fst (Dashboard.create_category_pie_chart df h) = Raise (KeyError k) <->
     (has_column col_category (nth df h []) = false /\ k = col_category)
     \/ (has_column col_category (nth df h []) = true
         /\ has_column col_amount (nth df h []) = false /\ k = col_amount))
  /\ (fst (Dashboard.create_monthly_trend_chart df None h)
      = Raise (KeyError k) <->
        (has_column col_year_month (nth df h []) = false
         /\ k = col_year_month)
        \/ (has_column col_year_month (nth df h []) = true
            /\ has_column col_amount (nth df h []) = false /\ k = col_amount))
  /\ snd (Dashboard.create_category_pie_chart df h) = h
  /\ snd (Dashboard.create_monthly_trend_chart df None h) = h.
Proof.
  split; [|split; [|split]].
  - rewrite <- frame_groupby_sum_KeyError.
    unfold Dashboard.create_category_pie_chart, bindM, deref, lift, ret.
    destruct (frame_groupby_sum col_category (nth df h [])); cbn [fst];
      split; congruence.
  - rewrite <- frame_groupby_sum_KeyError.
    unfold Dashboard.create_monthly_trend_chart, frame_groupby_sum, bindM,
      deref, lift, ret.
    destruct (rows_kv col_year_month (nth df h [])); cbn [fst bind];
      split; congruence.
  - apply dashboard_pie_read_only.
  - apply dashboard_monthly_read_only.
Qed.

(** X22: in a frame that [load_data] returned, the category chart and
    the monthly chart always find their columns: neither fails with
    [KeyError]. *)
Theorem loaded_frame_charts_find_columns
  (parse_text : string -> option Timestamp)
  (parse_number : Q -> option Timestamp) (read_excel : result DataFrame)
  (df' : DataFrame) :
  fst (load_data parse_text parse_number read_excel) = Some df' ->
  charts_find_columns df'.
Proof.
  intros H.
  destruct (proj2 (load_data_cases parse_text parse_number read_excel) df' H)
    as (_ & df & d & dates & -> & Hd & _ & -> & _).
  assert (Hreq : forall c, In c required_columns -> has_column c df = true).
  { apply forallb_forall. cbn [load_data] in H.
    destruct (forallb (fun c => has_column c df) required_columns);
      [reflexivity | discriminate]. }
  assert (Hc : has_column col_category (loaded_frame dates df) = true)
    by (apply loaded_frame_has_column, Hreq; simpl; auto).
  assert (Ha : has_column col_amount (loaded_frame dates df) = true)
    by (apply loaded_frame_has_column, Hreq; simpl; auto).
  assert (Hm : has_column col_year_month (loaded_frame dates df) = true).
  { eapply getitem_Ok_has_column, (loaded_frame_columns dates df). }
  intros k. rewrite !frame_groupby_sum_KeyError. split;
    intros [[Hf _]|(_ & Hf & _)]; congruence.
Qed.

Lemma loaded_frame_charts_find_columns_witness :
  fst (load_data iso_date epoch_ns (Ok sample_frame))
  = Some (loaded_frame
            [CTime (mkTimestamp 2024 1 1); CTime (mkTimestamp 2024 1 2);
             CTime (mkTimestamp 2024 2 1)] sample_frame)
  /\ charts_find_columns
       (loaded_frame
          [CTime (mkTimestamp 2024 1 1); CTime (mkTimestamp 2024 1 2);
           CTime (mkTimestamp 2024 2 1)] sample_frame).
Proof.
  assert (H : fst (load_data iso_date epoch_ns (Ok sample_frame))
              = Some (loaded_frame
                        [CTime (mkTimestamp 2024 1 1);
                         CTime (mkTimestamp 2024 1 2);
                         CTime (mkTimestamp 2024 2 1)] sample_frame))
    by (vm_compute; reflexivity).
  split; [exact H|].
  exact (loaded_frame_charts_find_columns iso_date epoch_ns (Ok sample_frame)
           _ H).
Defined.



